(** * The user administration page of the CSMS dashboard

    A shallow embedding of [src/pages/dashboard/csms/users.tsx]: the
    [Users] component, its derived list [filteredUser] and its event
    handlers, together with the properties its specification states.

    Conventions of the embedding.
    - A [User] is a record; as a JavaScript object (request body,
      property access [a[field]]) it is a finite map from property names
      to values, [toObject].
    - A string is the sequence of bytes of its text in UTF-8; ASCII text
      is one byte per code unit.  The built-ins whose result depends on
      Unicode tables or on the number format, [toLowerCase],
      [localeCompare] and the conversion of a number to a string in a
      template literal, are the host's: section variables, of which a
      theorem assumes what it needs and says so.
    - The HTTP backend, the console and the router are outside the
      component.  The backend is an arbitrary deterministic responder
      (a section variable); console and router calls are recorded in a
      trace, as are the requests issued.
    - An [async] handler is run to completion: every awaited request is
      answered before the handler goes on, and the call [fetchUsers()]
      that [createUser], [updateUser] and [deleteUser] make without
      awaiting it is run in place.  What follows that call in the source,
      [setShowForm(false)], writes another state variable and has no
      effect on the environment, so the state and the trace a handler
      ends with do not depend on the moment the list arrives.  Events of
      the user that fall between a request and its answer are not
      modelled. *)

From Stdlib Require Import ZArith String Ascii List Sorting.Sorted Permutation.
From Stdlib Require Import OrderedTypeEx.
From stdpp Require Import gmap strings list pretty.

Open Scope string_scope.
Open Scope list_scope.
Open Scope Z_scope.

(** ** JavaScript values and built-ins used by the page *)

Inductive JsValue : Type :=
  | JNum (n : Z)
  | JStr (s : string).

(** ASCII text: every byte is below 128. *)
Fixpoint isAscii (s : string) : bool :=
  match s with
  | EmptyString => true
  | String c s' => (N_of_ascii c <? 128)%N && isAscii s'
  end.

(** What [String.prototype.toLowerCase] does to ASCII text: the letters
    A to Z (65 to 90) go to a to z, every other code unit stays. *)
Definition lowerCodeUnit (c : ascii) : ascii :=
  let n := N_of_ascii c in
  if ((65 <=? n) && (n <=? 90))%N then ascii_of_N (n + 32) else c.

Fixpoint mapCodeUnits (f : ascii -> ascii) (s : string) : string :=
  match s with
  | EmptyString => EmptyString
  | String c s' => String (f c) (mapCodeUnits f s')
  end.

Definition asciiLowerCase (s : string) : string := mapCodeUnits lowerCodeUnit s.

(** What is assumed of the host's [toLowerCase] where letter case
    matters: on ASCII text it is [asciiLowerCase]. *)
Definition lowersAscii (toLowerCase : string -> string) : Prop :=
  forall s, isAscii s = true -> toLowerCase s = asciiLowerCase s.

(** What is assumed of the host's conversion of a number to a string
    where the digits matter: an integer of magnitude below 2^53 is
    written as its decimal numeral, with a minus sign when negative. *)
Definition writesDecimal (numberToString : Z -> string) : Prop :=
  forall k, - 2 ^ 53 < k < 2 ^ 53 -> numberToString k = pretty k.

(** [startsWith q s]: the code units of [q] are the first ones of [s]. *)
Fixpoint startsWith (q s : string) : bool :=
  match q, s with
  | EmptyString, _ => true
  | String _ _, EmptyString => false
  | String c q', String d s' => if Ascii.eqb c d then startsWith q' s' else false
  end.

(** [String.prototype.includes]: [includes s q] is [s.includes(q)], true
    when [q] occurs in [s] at some position. *)
Fixpoint includes (s q : string) : bool :=
  startsWith q s ||
  match s with
  | EmptyString => false
  | String _ s' => includes s' q
  end.

(** [String.prototype.split] with a one code unit separator. *)
Fixpoint split (sep : ascii) (s : string) : list string :=
  match s with
  | EmptyString => [EmptyString]
  | String c s' =>
      if Ascii.eqb c sep then EmptyString :: split sep s'
      else match split sep s' with
           | h :: t => String c h :: t
           | [] => [String c EmptyString]
           end
  end.

(** [Array.prototype.sort] with a comparison function.  The built-in is a
    stable sort; the model is the stable insertion sort, which places an
    element before the first one it does not compare greater than.  For
    a consistent comparison function every stable sort gives this result
    ([sort_unique] below). *)
Section ArraySort.
Context {A : Type} (compareFn : A -> A -> Z).

Fixpoint sortInsert (x : A) (l : list A) : list A :=
  match l with
  | [] => [x]
  | y :: l' => if compareFn x y <=? 0 then x :: y :: l' else y :: sortInsert x l'
  end.

Definition sort (l : list A) : list A := foldr sortInsert [] l.

(** The order and the ties of a comparison function: [a] is not after
    [b], and [a] and [b] compare equal. *)
Definition notAfter (a b : A) : Prop := compareFn a b <= 0.
Definition tie (a b : A) : bool := compareFn a b =? 0.
End ArraySort.

(** A collation to run the page with: code unit order, the comparison
    [localeCompare] makes on ASCII letters of one case. *)
Definition codeUnitCompare (a b : string) : Z :=
  match String.compare a b with
  | Eq => 0
  | Lt => -1
  | Gt => 1
  end.

(** A number format to run the page with: the decimal numeral. *)
Definition decimalNumeral (k : Z) : string := pretty k.

(** A [toLowerCase] to run the page with: that of ECMA-262 (the default
    case conversion of Unicode, with the Final_Sigma condition on capital
    sigma) for text over Basic Latin and the Greek letters alpha to omega,
    capital and small.  The text is read from UTF-8 and written back;
    code points outside that repertoire are left as they are. *)
Inductive Item : Type :=
  | CodePoint (n : N)
  | Byte (b : ascii).

Fixpoint decode (s : string) : list Item :=
  match s with
  | EmptyString => []
  | String b s' =>
      let n := N_of_ascii b in
      if (n <? 128)%N then CodePoint n :: decode s'
      else if ((194 <=? n) && (n <=? 223))%N
      then match s' with
           | String b' s'' =>
               let m := N_of_ascii b' in
               if ((128 <=? m) && (m <=? 191))%N
               then CodePoint ((n - 192) * 64 + (m - 128)) :: decode s''
               else Byte b :: decode s'
           | EmptyString => [Byte b]
           end
      else Byte b :: decode s'
  end.

Definition encodeItem (i : Item) : string :=
  match i with
  | CodePoint n =>
      if (n <? 128)%N then String (ascii_of_N n) EmptyString
      else String (ascii_of_N (192 + n / 64))
             (String (ascii_of_N (128 + n mod 64)) EmptyString)
  | Byte b => String b EmptyString
  end.

Fixpoint encode (l : list Item) : string :=
  match l with
  | [] => EmptyString
  | i :: l' => encodeItem i +:+ encode l'
  end.

(** A to Z, a to z, U+0391 to U+03A9 (U+03A2 is unassigned), U+03B1 to
    U+03C9. *)
Definition isCapitalLatin (n : N) : bool := ((65 <=? n) && (n <=? 90))%N.
Definition isSmallLatin (n : N) : bool := ((97 <=? n) && (n <=? 122))%N.
Definition isCapitalGreek (n : N) : bool :=
  ((913 <=? n) && (n <=? 937) && negb (n =? 930))%N.
Definition isSmallGreek (n : N) : bool := ((945 <=? n) && (n <=? 969))%N.

Definition cased (n : N) : bool :=
  isCapitalLatin n || isSmallLatin n || isCapitalGreek n || isSmallGreek n.

(** The case-ignorable characters of Basic Latin: apostrophe, full stop,
    colon, circumflex accent, grave accent. *)
Definition caseIgnorable (n : N) : bool :=
  ((n =? 39) || (n =? 46) || (n =? 58) || (n =? 94) || (n =? 96))%N.

(** What follows is case-ignorable characters and then a cased letter. *)
Fixpoint beforeCased (l : list Item) : bool :=
  match l with
  | CodePoint n :: l' => if caseIgnorable n then beforeCased l' else cased n
  | _ => false
  end.

Definition lowerCodePoint (n : N) : N :=
  if isCapitalLatin n || isCapitalGreek n then (n + 32)%N else n.

(** [afterCased]: what precedes is a cased letter and then
    case-ignorable characters.  Capital sigma (U+03A3, 931) becomes final
    sigma (U+03C2, 962) when it is after a cased letter and not before
    one, and small sigma (U+03C3, 963) otherwise. *)
Fixpoint lowerItems (afterCased : bool) (l : list Item) : list Item :=
  match l with
  | [] => []
  | CodePoint n :: l' =>
      CodePoint (if (n =? 931)%N
                 then (if afterCased && negb (beforeCased l') then 962 else 963)%N
                 else lowerCodePoint n)
      :: lowerItems (if caseIgnorable n then afterCased else cased n) l'
  | Byte b :: l' => Byte b :: lowerItems false l'
  end.

Definition hostLowerCase (s : string) : string :=
  encode (lowerItems false (decode s)).

(** ** Data model *)

Record User : Type := mkUser {
  id : Z;
  fullName : string;
  mobileNumber : string;
  email : string;
  roles : string
}.

(** The own properties of a [User] object. *)
Definition toObject (u : User) : gmap string JsValue :=
  <["id" := JNum (id u)]>
  (<["fullName" := JStr (fullName u)]>
  (<["mobileNumber" := JStr (mobileNumber u)]>
  (<["email" := JStr (email u)]>
  (<["roles" := JStr (roles u)]> ∅)))).

(** The placeholder record of lines 10, 61 and 103. *)
Definition emptyUser : User :=
  {| id := 0; fullName := ""; mobileNumber := ""; email := ""; roles := "" |}.

Record SortOrder : Type := mkSortOrder {
  field : string;
  order : string
}.

(** The component state, one field per [useState]. *)
Record State : Type := mkState {
  users : list User;
  newUser : User;
  editUser : option User;
  showForm : bool;
  searchQuery : string;
  sortOrder : SortOrder
}.

Definition initialState : State :=
  {| users := [];
     newUser := {| id := 0; fullName := ""; mobileNumber := ""; email := ""; roles := "" |};
     editUser := None;
     showForm := false;
     searchQuery := "";
     sortOrder := {| field := "fullName"; order := "asc" |} |}.

(** ** The environment of the component *)

Inductive Method : Type := GET | POST | PUT | DELETE.

(** A call of the Axios instance [api]: [api.get(url)], [api.post(url, data)],
    [api.put(url, data)], [api.delete(url)]. *)
Record Request : Type := mkRequest {
  method : Method;
  url : string;
  body : option (gmap string JsValue)
}.

(** What a rejected request throws; [status] is [error.response?.status]. *)
Record AxiosError : Type := mkAxiosError {
  status : option Z
}.

(** The outcome of a request.  The only payload the page reads is
    [response.data] of the list fetch, which [setUsers] takes for an
    array of users. *)
Inductive Response : Type :=
  | Resolve (data : list User)
  | Reject (error : AxiosError).

(** The effects a handler has on its environment, in order. *)
Inductive Event : Type :=
  | EvRequest (r : Request)
  | EvConsoleError (message : string) (error : AxiosError)
  | EvRouterPush (path : string).

Definition requestsOf (t : list Event) : list Request :=
  omap (fun e => match e with EvRequest r => Some r | _ => None end) t.

Definition navigationsOf (t : list Event) : list string :=
  omap (fun e => match e with EvRouterPush p => Some p | _ => None end) t.

(** How a computation ends: with a value, or with an error thrown. *)
Inductive Outcome (A : Type) : Type :=
  | Returned (a : A)
  | Thrown (error : AxiosError).
Arguments Returned {A} a.
Arguments Thrown {A} error.

(** A backend to run the page with: it answers the requests it receives
    with the responses of a script, in order, and rejects without a
    response once the script is used up. *)
Definition scripted (script : list Response) (r : Request)
  : Response * list Response :=
  match script with
  | [] => (Reject {| status := None |}, [])
  | answer :: rest => (answer, rest)
  end.

(** The value of the sort drop-down (lines 134-139). *)
Inductive SortOption : Type := NameAsc | NameDesc | EmailAsc | EmailDesc.

Definition optionValue (o : SortOption) : string :=
  match o with
  | NameAsc => "fullName-asc"
  | NameDesc => "fullName-desc"
  | EmailAsc => "email-asc"
  | EmailDesc => "email-desc"
  end.

(** What the user can do on the page: the mount effect and the handlers
    bound in the rendered tree (lines 19-21 and 116-206). *)
Inductive Action : Type :=
  | Mount
  | SearchInput (value : string)
  | SortSelect (o : SortOption)
  | AddClick
  | EditClick (user : User)
  | DeleteClick (user : User)
  | FullNameInput (value : string)
  | EmailInput (value : string)
  | MobileNumberInput (value : string)
  | SubmitClick
  | CancelClick.

(** ** The notions the specification uses *)

(** Two code units are the same when case is ignored: they are equal,
    or one is a capital letter A to Z and the other the small letter, 32
    above. *)
Definition equalIgnoringCase (c d : ascii) : Prop :=
  let m := N_of_ascii c in
  let n := N_of_ascii d in
  m = n \/
  ((65 <= m <= 90)%N /\ n = (m + 32)%N) \/
  ((65 <= n <= 90)%N /\ m = (n + 32)%N).

(** Two texts are the same when case is ignored: they have the same
    length and the same code units, case ignored, at each place. *)
Fixpoint sameIgnoringCase (a b : string) : Prop :=
  match a, b with
  | EmptyString, EmptyString => True
  | String c a', String d b' => equalIgnoringCase c d /\ sameIgnoringCase a' b'
  | _, _ => False
  end.

(** [q] is a substring of [s] when case is ignored: some stretch of [s]
    is the same text as [q], case ignored. *)
Definition isSubstringIgnoringCase (q s : string) : Prop :=
  exists pre mid post : string,
    s = pre +:+ mid +:+ post /\ sameIgnoringCase mid q.

(** [output] is [input] stable-sorted: the same elements, in the order
    [before], with tied elements in the order they had in [input]. *)
Definition stableSorted {A : Type} (before : A -> A -> Prop) (tied : A -> A -> bool)
    (input output : list A) : Prop :=
  Permutation input output /\
  StronglySorted before output /\
  forall x, List.filter (tied x) output = List.filter (tied x) input.

(** A comparison function is consistent when it orders its arguments the
    same way whichever comes first, and transitively. *)
Definition consistent {A : Type} (compareFn : A -> A -> Z) : Prop :=
  (forall a b, Z.sgn (compareFn a b) = - Z.sgn (compareFn b a)) /\
  (forall a b c, compareFn a b <= 0 -> compareFn b c <= 0 -> compareFn a c <= 0).

Section Component.
(** [toLowerCase], [localeCompare] and the number to string conversion of
    the host, and the backend behind [api]. *)
Variable toLowerCase : string -> string.
Variable localeCompare : string -> string -> Z.
Variable numberToString : Z -> string.
Variable Server : Type.
Variable respond : Server -> Request -> Response * Server.

(** *** The derived list (lines 36-56) *)

(** The predicate of [.filter] (lines 37-43). *)
Definition matchesQuery (searchQuery : string) (user : User) : bool :=
  let query := toLowerCase searchQuery in
  includes (toLowerCase (fullName user)) query ||
  includes (toLowerCase (email user)) query.

(** The comparison function of [.sort] (lines 44-56). *)
Definition compareUsers (sortOrder : SortOrder) (a b : User) : Z :=
  match toObject a !! field sortOrder, toObject b !! field sortOrder with
  | Some (JStr x), Some (JStr y) =>
      if String.eqb (order sortOrder) "asc"
      then localeCompare x y
      else localeCompare y x
  | Some (JNum x), Some (JNum y) =>
      if String.eqb (order sortOrder) "asc" then x - y else y - x
  | _, _ => 0
  end.

Definition filteredUser (s : State) : list User :=
  sort (compareUsers (sortOrder s))
       (List.filter (matchesQuery (searchQuery s)) (users s)).

(** *** Handlers as computations over the component and its environment *)

Record World : Type := mkWorld {
  view : State;
  backend : Server;
  trace : list Event
}.

Definition M (A : Type) : Type := World -> Outcome A * World.

#[local] Instance M_ret : MRet M := fun A a w => (Returned a, w).

#[local] Instance M_bind : MBind M := fun A B f m w =>
  match m w with
  | (Returned a, w') => f a w'
  | (Thrown error, w') => (Thrown error, w')
  end.

(** [try { body } catch (error) { handler }] *)
Definition tryCatch {A : Type} (body : M A) (handler : AxiosError -> M A) : M A :=
  fun w =>
    match body w with
    | (Returned a, w') => (Returned a, w')
    | (Thrown error, w') => handler error w'
    end.

Definition getState : M State := fun w => (Returned (view w), w).

Definition setState (f : State -> State) : M unit := fun w =>
  (Returned tt, {| view := f (view w); backend := backend w; trace := trace w |}).

Definition emit (e : Event) : M unit := fun w =>
  (Returned tt, {| view := view w; backend := backend w; trace := trace w ++ [e] |}).

(** An awaited call of [api]: the request goes out, the backend answers,
    and a rejection is thrown at the [await]. *)
Definition request (r : Request) : M (list User) := fun w =>
  let (answer, backend') := respond (backend w) r in
  let w' := {| view := view w; backend := backend'; trace := trace w ++ [EvRequest r] |} in
  match answer with
  | Resolve data => (Returned data, w')
  | Reject error => (Thrown error, w')
  end.

Definition api_get (url : string) : M (list User) :=
  request {| method := GET; url := url; body := None |}.
Definition api_post (url : string) (data : gmap string JsValue) : M (list User) :=
  request {| method := POST; url := url; body := Some data |}.
Definition api_put (url : string) (data : gmap string JsValue) : M (list User) :=
  request {| method := PUT; url := url; body := Some data |}.
Definition api_delete (url : string) : M (list User) :=
  request {| method := DELETE; url := url; body := None |}.

Definition console_error (message : string) (error : AxiosError) : M unit :=
  emit (EvConsoleError message error).
Definition router_push (path : string) : M unit :=
  emit (EvRouterPush path).

(** The state setters of lines 9-14. *)
Definition setUsers (v : list User) : M unit :=
  setState (fun s => {| users := v; newUser := newUser s; editUser := editUser s;
                        showForm := showForm s; searchQuery := searchQuery s;
                        sortOrder := sortOrder s |}).
Definition setNewUser (v : User) : M unit :=
  setState (fun s => {| users := users s; newUser := v; editUser := editUser s;
                        showForm := showForm s; searchQuery := searchQuery s;
                        sortOrder := sortOrder s |}).
Definition setEditUser (v : option User) : M unit :=
  setState (fun s => {| users := users s; newUser := newUser s; editUser := v;
                        showForm := showForm s; searchQuery := searchQuery s;
                        sortOrder := sortOrder s |}).
Definition setShowForm (v : bool) : M unit :=
  setState (fun s => {| users := users s; newUser := newUser s; editUser := editUser s;
                        showForm := v; searchQuery := searchQuery s;
                        sortOrder := sortOrder s |}).
Definition setSearchQuery (v : string) : M unit :=
  setState (fun s => {| users := users s; newUser := newUser s; editUser := editUser s;
                        showForm := showForm s; searchQuery := v;
                        sortOrder := sortOrder s |}).
Definition setSortOrder (v : SortOrder) : M unit :=
  setState (fun s => {| users := users s; newUser := newUser s; editUser := editUser s;
                        showForm := showForm s; searchQuery := searchQuery s;
                        sortOrder := v |}).

(** *** The handlers (lines 17-114) *)

Definition apiUrl : string := "/users".

(** The template literal [`${apiUrl}/${id}`]: the id is written as the
    host writes a number. *)
Definition itemUrl (k : Z) : string := apiUrl +:+ "/" +:+ numberToString k.

Definition fetchUsers : M unit :=
  tryCatch
    (data ← api_get apiUrl;
     setUsers data)
    (fun error =>
       console_error "Error fetching users:" error;;
       if decide (status error = Some 401)
       then router_push "/login"
       else mret tt).

Definition createUser : M unit :=
  tryCatch
    (s ← getState;
     api_post apiUrl (toObject (newUser s));;
     setNewUser {| fullName := ""; mobileNumber := ""; email := ""; roles := ""; id := 0 |};;
     fetchUsers;;
     setShowForm false)
    (fun error => console_error "Error creating user:" error).

Definition updateUser : M unit :=
  tryCatch
    (s ← getState;
     match editUser s with
     | Some edited =>
         api_put (itemUrl (id edited)) (toObject edited);;
         setEditUser None;;
         fetchUsers;;
         setShowForm false
     | None => mret tt
     end)
    (fun error => console_error "Error updating user:" error).

Definition deleteUser (k : Z) : M unit :=
  tryCatch
    (api_delete (itemUrl k);;
     fetchUsers)
    (fun error => console_error "Error deleting user:" error).

Definition handleEditClick (user : User) : M unit :=
  setEditUser (Some user);;
  setShowForm true.

Definition handleAddClick : M unit :=
  setEditUser None;;
  setShowForm true.

Definition handleCancelClick : M unit :=
  setEditUser None;;
  setNewUser {| fullName := ""; mobileNumber := ""; email := ""; roles := ""; id := 0 |};;
  setShowForm false.

Definition handleSearchChange (value : string) : M unit :=
  setSearchQuery value.

(** Lines 111-114.  The value of the drop-down is one of its four
    options, each of which splits in two parts at ["-"], so that the
    default of [nth] is never taken. *)
Definition handleSortChange (o : SortOption) : M unit :=
  let parts := split "-" (optionValue o) in
  setSortOrder {| field := nth 0 parts ""; order := nth 1 parts "" |}.

(** The [onChange] handlers of the three form inputs (lines 168-192):
    the object spread copies every property and replaces one. *)
Definition withFullName (u : User) (v : string) : User :=
  {| id := id u; fullName := v; mobileNumber := mobileNumber u;
     email := email u; roles := roles u |}.
Definition withEmail (u : User) (v : string) : User :=
  {| id := id u; fullName := fullName u; mobileNumber := mobileNumber u;
     email := v; roles := roles u |}.
Definition withMobileNumber (u : User) (v : string) : User :=
  {| id := id u; fullName := fullName u; mobileNumber := v;
     email := email u; roles := roles u |}.

Definition onInput (spread : User -> string -> User) (value : string) : M unit :=
  s ← getState;
  match editUser s with
  | Some edited => setEditUser (Some (spread edited value))
  | None => setNewUser (spread (newUser s) value)
  end.

(** The submit button (line 195): [editUser ? updateUser : createUser]. *)
Definition onSubmit : M unit :=
  s ← getState;
  match editUser s with
  | Some _ => updateUser
  | None => createUser
  end.

Definition dispatch (a : Action) : M unit :=
  match a with
  | Mount => fetchUsers
  | SearchInput value => handleSearchChange value
  | SortSelect o => handleSortChange o
  | AddClick => handleAddClick
  | EditClick user => handleEditClick user
  | DeleteClick user => deleteUser (id user)
  | FullNameInput value => onInput withFullName value
  | EmailInput value => onInput withEmail value
  | MobileNumberInput value => onInput withMobileNumber value
  | SubmitClick => onSubmit
  | CancelClick => handleCancelClick
  end.

(** The world a handler leaves behind. *)
Definition exec (m : M unit) (w : World) : World := snd (m w).

(** The component before its first render, on a given backend. *)
Definition initialWorld (srv : Server) : World :=
  {| view := initialState; backend := srv; trace := [] |}.

(** The worlds a session can be in when each action is handled to its
    end, answers included, before the next one is taken. *)
Inductive reachable : World -> Prop :=
  | reachable_initial srv : reachable (initialWorld srv)
  | reachable_step w a : reachable w -> reachable (exec (dispatch a) w).

(** *** The order the specification names

    Sorting "by a field, in a direction": the key of a user is the value
    of the field, and two keys are in ascending (descending) order when
    [localeCompare] does not place the first after (before) the second. *)
Definition sortKey (field : string) (u : User) : string :=
  if String.eqb field "email" then email u else fullName u.

Definition inDirection (order : string) (x y : string) : Prop :=
  if String.eqb order "desc" then localeCompare x y >= 0 else localeCompare x y <= 0.

Definition tiedKeys (field : string) (a b : User) : bool :=
  localeCompare (sortKey field a) (sortKey field b) =? 0.

(** *** The rendered page (lines 116-206)

    What the component returns, as far as the state decides it: the list
    when [showForm] is false (lines 121-159), the form when it is true
    (lines 161-203).  The list shows the search box with its value and
    one item per element of [filteredUser], keyed by [id]; the form shows
    a heading, the three inputs with their values, and the submit button
    with its label. *)
Inductive Rendered : Type :=
  | ListView (searchValue : string) (items : list User)
  | FormView (heading : string)
      (fullNameValue emailValue mobileNumberValue : string)
      (submitLabel : string).

Definition render (s : State) : Rendered :=
  if showForm s
  then match editUser s with
       | Some edited =>
           FormView "Edit User"
             (fullName edited) (email edited) (mobileNumber edited) "Update"
       | None =>
           FormView "Add New User"
             (fullName (newUser s)) (email (newUser s)) (mobileNumber (newUser s))
             "Create"
       end
  else ListView (searchQuery s) (filteredUser s).

(** The keys of the list items (line 145). *)
Definition itemKeys (s : State) : list Z := map id (filteredUser s).

(** *** Sessions *)

(** The actions that call [api]: the mount effect, the delete button and
    the submit button.  The others only set state. *)
Definition callsApi (a : Action) : bool :=
  match a with
  | Mount | DeleteClick _ | SubmitClick => true
  | _ => false
  end.

(** A run of actions, each handled to completion before the next. *)
Definition run (actions : list Action) (w : World) : World :=
  foldl (fun w a => exec (dispatch a) w) w actions.

(** The four shapes of request the handlers make; the id in a URL is
    written as the host writes a number. *)
Definition wellFormed (r : Request) : Prop :=
  match method r with
  | GET => url r = "/users" /\ body r = None
  | POST => url r = "/users" /\ exists u : User, body r = Some (toObject u)
  | PUT => exists u : User,
             url r = "/users/" +:+ numberToString (id u) /\
             body r = Some (toObject u)
  | DELETE => (exists k : Z, url r = "/users/" +:+ numberToString k) /\ body r = None
  end.

(** ** Properties *)

(** *** Strings *)

Lemma append_nil (s : string) : "" +:+ s = s.
Proof. reflexivity. Qed.

Lemma append_cons (c : ascii) (a b : string) :
  String c a +:+ b = String c (a +:+ b).
Proof. reflexivity. Qed.

Lemma append_assoc (a b c : string) : (a +:+ b) +:+ c = a +:+ (b +:+ c).
Proof.
  induction a as [|x a IH]; [reflexivity|].
  rewrite !append_cons. now rewrite IH.
Qed.

Lemma startsWith_spec (q s : string) :
  startsWith q s = true <-> exists post, s = q +:+ post.
Proof.
  revert s. induction q as [|c q IH]; intros s; simpl.
  - split; [intros _; now exists s | reflexivity].
  - destruct s as [|d s].
    + split; [discriminate | intros [post H]; rewrite append_cons in H; discriminate].
    + destruct (Ascii.eqb_spec c d) as [->|Hne].
      * rewrite IH. split; intros [post H]; exists post.
        -- rewrite append_cons. now rewrite H.
        -- rewrite append_cons in H. now injection H.
      * split; [discriminate|].
        intros [post H]. rewrite append_cons in H. injection H as Hc _.
        now destruct Hne.
Qed.

Lemma includes_spec (s q : string) :
  includes s q = true <-> exists pre post, s = pre +:+ q +:+ post.
Proof.
  induction s as [|c s IH].
  - simpl. rewrite orb_false_r, startsWith_spec. split.
    + intros [post H]. now exists "", post.
    + intros [pre [post H]]. destruct pre as [|x pre].
      * now exists post.
      * rewrite append_cons in H. discriminate.
  - cbn [includes]. rewrite orb_true_iff, startsWith_spec, IH. split.
    + intros [[post H] | [pre [post H]]].
      * now exists "", post.
      * exists (String c pre), post. rewrite append_cons. now rewrite H.
    + intros [pre [post H]]. destruct pre as [|x pre].
      * left. now exists post.
      * right. rewrite append_cons in H. injection H as _ H.
        now exists pre, post.
Qed.

Lemma mapCodeUnits_append (f : ascii -> ascii) (a b : string) :
  mapCodeUnits f (a +:+ b) = mapCodeUnits f a +:+ mapCodeUnits f b.
Proof.
  induction a as [|c a IH]; [reflexivity|].
  rewrite append_cons. simpl. now rewrite IH, append_cons.
Qed.

(** A split of the image of [s] comes from a split of [s]. *)
Lemma mapCodeUnits_split (f : ascii -> ascii) (s x y : string) :
  mapCodeUnits f s = x +:+ y ->
  exists a b, s = a +:+ b /\ mapCodeUnits f a = x /\ mapCodeUnits f b = y.
Proof.
  revert s. induction x as [|c x IH]; intros s H.
  - now exists "", s.
  - destruct s as [|d s]; [rewrite append_cons in H; discriminate|].
    rewrite append_cons in H. simpl in H. injection H as Hc H.
    destruct (IH _ H) as (a & b & -> & Ha & Hb).
    exists (String d a), b. rewrite append_cons. simpl. now rewrite Hc, Ha.
Qed.

(** Lower-casing ASCII text forgets exactly the case. *)
Lemma N_of_lowerCodeUnit (c : ascii) :
  N_of_ascii (lowerCodeUnit c) =
  if ((65 <=? N_of_ascii c) && (N_of_ascii c <=? 90))%N
  then (N_of_ascii c + 32)%N else N_of_ascii c.
Proof.
  unfold lowerCodeUnit. cbv zeta.
  destruct ((65 <=? N_of_ascii c) && (N_of_ascii c <=? 90))%N eqn:E; [|reflexivity].
  apply andb_true_iff in E as [_ E%N.leb_le].
  apply N_ascii_embedding. lia.
Qed.

Lemma N_of_ascii_inj (c d : ascii) : N_of_ascii c = N_of_ascii d -> c = d.
Proof.
  intros H. rewrite <- (ascii_N_embedding c), <- (ascii_N_embedding d).
  now rewrite H.
Qed.

Lemma lowerCodeUnit_eq (c d : ascii) :
  lowerCodeUnit c = lowerCodeUnit d <-> equalIgnoringCase c d.
Proof.
  unfold equalIgnoringCase. cbv zeta. split.
  - intros H%(f_equal N_of_ascii). rewrite !N_of_lowerCodeUnit in H.
    destruct (N.leb_spec 65 (N_of_ascii c)), (N.leb_spec (N_of_ascii c) 90),
             (N.leb_spec 65 (N_of_ascii d)), (N.leb_spec (N_of_ascii d) 90);
      cbn [andb] in H; lia.
  - intros H. apply N_of_ascii_inj. rewrite !N_of_lowerCodeUnit.
    destruct (N.leb_spec 65 (N_of_ascii c)), (N.leb_spec (N_of_ascii c) 90),
             (N.leb_spec 65 (N_of_ascii d)), (N.leb_spec (N_of_ascii d) 90);
      cbn [andb]; lia.
Qed.

Lemma asciiLowerCase_eq (a b : string) :
  asciiLowerCase a = asciiLowerCase b <-> sameIgnoringCase a b.
Proof.
  unfold asciiLowerCase. revert b.
  induction a as [|c a IH]; intros [|d b]; cbn [mapCodeUnits sameIgnoringCase];
    try (split; [discriminate | contradiction]); [tauto|].
  rewrite <- IH, <- lowerCodeUnit_eq. split.
  - intros [= Hc Ha]. now split.
  - intros [Hc Ha]. now rewrite Hc, Ha.
Qed.

Lemma includes_asciiLowerCase (s q : string) :
  includes (asciiLowerCase s) (asciiLowerCase q) = true <->
  isSubstringIgnoringCase q s.
Proof.
  unfold isSubstringIgnoringCase. rewrite includes_spec. split.
  - intros (x & z & H). unfold asciiLowerCase in H at 1.
    apply mapCodeUnits_split in H as (pre & rest & -> & Hpre & H).
    apply mapCodeUnits_split in H as (mid & post & -> & Hmid & Hpost).
    exists pre, mid, post. split; [reflexivity|].
    now apply asciiLowerCase_eq.
  - intros (pre & mid & post & -> & Hmid%asciiLowerCase_eq).
    exists (asciiLowerCase pre), (asciiLowerCase post).
    unfold asciiLowerCase in *. now rewrite !mapCodeUnits_append, Hmid.
Qed.

(** What the test of line 40 (and 41) decides, on ASCII text. *)
Lemma includes_toLowerCase (s q : string) :
  lowersAscii toLowerCase ->
  isAscii s = true -> isAscii q = true ->
  includes (toLowerCase s) (toLowerCase q) = true <-> isSubstringIgnoringCase q s.
Proof.
  intros H Hs Hq. rewrite (H s Hs), (H q Hq). apply includes_asciiLowerCase.
Qed.

(** *** Sorting *)

Section SortFacts.
Context {A : Type} (compareFn : A -> A -> Z).

Lemma sortInsert_Permutation (x : A) (l : list A) :
  Permutation (x :: l) (sortInsert compareFn x l).
Proof.
  induction l as [|y l IH]; simpl; [reflexivity|].
  destruct (compareFn x y <=? 0); [reflexivity|].
  rewrite perm_swap. now apply perm_skip.
Qed.

Lemma sort_Permutation (l : list A) : Permutation l (sort compareFn l).
Proof.
  induction l as [|x l IH]; simpl; [reflexivity|].
  rewrite <- sortInsert_Permutation. now apply perm_skip.
Qed.

Lemma sort_In (x : A) (l : list A) : In x l <-> In x (sort compareFn l).
Proof.
  split; apply Permutation_in;
    [|symmetry]; apply sort_Permutation.
Qed.

(** With a consistent comparison function the result is in order,
    and elements that compare equal are not reordered. *)
Hypothesis compareFn_consistent : consistent compareFn.

Lemma compareFn_flip (a b : A) : 0 < compareFn a b -> compareFn b a <= 0.
Proof.
  intros H. destruct compareFn_consistent as [Hsgn _].
  specialize (Hsgn a b). rewrite (Z.sgn_pos _ H) in Hsgn.
  destruct (Z.sgn_spec (compareFn b a)) as [[? ?]|[[? ?]|[? ?]]]; lia.
Qed.

Lemma compareFn_tie_flip (a b : A) : compareFn a b = 0 -> compareFn b a = 0.
Proof.
  intros H. destruct compareFn_consistent as [Hsgn _].
  specialize (Hsgn a b). rewrite H in Hsgn. simpl in Hsgn.
  apply Z.sgn_null_iff. lia.
Qed.

Lemma sortInsert_Sorted (x : A) (l : list A) :
  Sorted (notAfter compareFn) l ->
  Sorted (notAfter compareFn) (sortInsert compareFn x l).
Proof.
  induction 1 as [|y l Hl IH Hy]; simpl.
  - repeat constructor.
  - destruct (Z.leb_spec (compareFn x y) 0) as [Hle|Hgt].
    + repeat constructor; assumption.
    + constructor; [exact IH|].
      assert (notAfter compareFn y x) by (apply compareFn_flip; lia).
      destruct l as [|z l]; simpl; [now constructor|].
      destruct (compareFn x z <=? 0); constructor; [assumption|].
      now inversion Hy.
Qed.

Lemma sort_StronglySorted (l : list A) :
  StronglySorted (notAfter compareFn) (sort compareFn l).
Proof.
  apply Sorted_StronglySorted.
  - intros a b c. apply (proj2 compareFn_consistent).
  - induction l as [|x l IH]; simpl; [constructor|].
    now apply sortInsert_Sorted.
Qed.

Lemma sortInsert_filter (z x : A) (l : list A) :
  List.filter (tie compareFn z) (sortInsert compareFn x l)
  = List.filter (tie compareFn z) (x :: l).
Proof.
  induction l as [|y l IH]; [reflexivity|].
  cbn [sortInsert].
  destruct (Z.leb_spec (compareFn x y) 0) as [Hle|Hgt]; [reflexivity|].
  cbn [List.filter] in *. rewrite IH.
  destruct (tie compareFn z x) eqn:Hx, (tie compareFn z y) eqn:Hy; try reflexivity.
  exfalso. unfold tie in Hx, Hy.
  apply Z.eqb_eq in Hx, Hy. apply compareFn_tie_flip in Hx.
  pose proof (proj2 compareFn_consistent x z y). lia.
Qed.

Lemma sort_filter (z : A) (l : list A) :
  List.filter (tie compareFn z) (sort compareFn l) = List.filter (tie compareFn z) l.
Proof.
  induction l as [|x l IH]; [reflexivity|].
  cbn [sort foldr]. fold (sort compareFn l).
  rewrite sortInsert_filter. cbn [List.filter]. now rewrite IH.
Qed.

Lemma sort_stableSorted (l : list A) :
  stableSorted (notAfter compareFn) (tie compareFn) l (sort compareFn l).
Proof.
  split; [apply sort_Permutation|].
  split; [apply sort_StronglySorted|].
  intros x. apply sort_filter.
Qed.

Lemma compareFn_refl (a : A) : compareFn a a = 0.
Proof.
  pose proof (proj1 compareFn_consistent a a).
  apply Z.sgn_null_iff. lia.
Qed.

Lemma compareFn_tie (a b : A) :
  notAfter compareFn a b -> notAfter compareFn b a -> tie compareFn a b = true.
Proof.
  unfold notAfter, tie. intros Hab Hba. apply Z.eqb_eq.
  pose proof (proj1 compareFn_consistent a b) as Hsgn.
  pose proof (Z.sgn_null_iff (compareFn a b)).
  destruct (Z.sgn_spec (compareFn a b)) as [[? ?]|[[? ?]|[? ?]]];
  destruct (Z.sgn_spec (compareFn b a)) as [[? ?]|[[? ?]|[? ?]]]; lia.
Qed.

(** The head of a list is the first element tied with itself. *)
Lemma filter_tie_head (a : A) (l : list A) :
  List.filter (tie compareFn a) (a :: l) = a :: List.filter (tie compareFn a) l.
Proof.
  cbn [List.filter]. unfold tie at 1. now rewrite compareFn_refl.
Qed.

(** Two sorted lists with the same elements in each class of ties,
    in the same order, are one list: a stable sort has one result. *)
Lemma stable_sorted_unique (l1 l2 : list A) :
  StronglySorted (notAfter compareFn) l1 -> StronglySorted (notAfter compareFn) l2 ->
  (forall x, List.filter (tie compareFn x) l1 = List.filter (tie compareFn x) l2) ->
  l1 = l2.
Proof.
  intros H1. revert l2.
  induction H1 as [|a l1 Hl1 IH Ha]; intros l2 H2 Hsame.
  - destruct l2 as [|b l2]; [reflexivity|].
    specialize (Hsame b). rewrite filter_tie_head in Hsame. discriminate.
  - destruct H2 as [|b l2 Hl2 Hb].
    + specialize (Hsame a). rewrite filter_tie_head in Hsame. discriminate.
    + assert (a = b) as <-.
      { pose proof (Hsame a) as Hfa. pose proof (Hsame b) as Hfb.
        rewrite filter_tie_head in Hfa, Hfb.
        cbn [List.filter] in Hfa, Hfb.
        destruct (tie compareFn a b) eqn:Eab; [now injection Hfa|].
        destruct (tie compareFn b a) eqn:Eba; [now injection Hfb|].
        exfalso.
        assert (In a l2) as Hin2.
        { eapply (proj1 (filter_In (tie compareFn a) a l2)). rewrite <- Hfa. now left. }
        assert (In b l1) as Hin1.
        { eapply (proj1 (filter_In (tie compareFn b) b l1)). rewrite Hfb. now left. }
        rewrite Forall_forall in Ha, Hb.
        pose proof (compareFn_tie a b (Ha b ltac:(now apply list_elem_of_In))
                      (Hb a ltac:(now apply list_elem_of_In))).
        congruence. }
      f_equal. apply IH; [exact Hl2|].
      intros x. specialize (Hsame x). cbn [List.filter] in Hsame.
      destruct (tie compareFn x a); [now injection Hsame | exact Hsame].
Qed.

Lemma sort_unique (l output : list A) :
  stableSorted (notAfter compareFn) (tie compareFn) l output ->
  output = sort compareFn l.
Proof.
  intros (_ & Hsorted & Hstable).
  apply stable_sorted_unique; [exact Hsorted|apply sort_StronglySorted|].
  intros x. rewrite sort_filter. apply Hstable.
Qed.
End SortFacts.

(** The order and the ties of [stableSorted] may be replaced by
    equivalent ones. *)
Lemma stableSorted_ext {A : Type} (before before' : A -> A -> Prop)
    (tied tied' : A -> A -> bool) (input output : list A) :
  (forall a b, before a b -> before' a b) ->
  (forall a b, tied a b = tied' a b) ->
  stableSorted before tied input output ->
  stableSorted before' tied' input output.
Proof.
  intros Hb Ht (Hperm & Hsorted & Hstable).
  split; [exact Hperm|]. split.
  - clear -Hb Hsorted. induction Hsorted as [|a l Hl IH Ha]; constructor.
    + exact IH.
    + eapply Forall_impl; [exact Ha|]. intros b. apply Hb.
  - intros x.
    rewrite <- !(filter_ext _ _ (Ht x)). apply Hstable.
Qed.

(** *** The derived list *)


(** On the two fields of the drop-down, [compareUsers] takes the first
    branch and compares the sort keys. *)
Lemma compareUsers_sortKey (f o : string) (a b : User) :
  f = "fullName" \/ f = "email" ->
  compareUsers {| field := f; order := o |} a b =
  if String.eqb o "asc"
  then localeCompare (sortKey f a) (sortKey f b)
  else localeCompare (sortKey f b) (sortKey f a).
Proof. intros [-> | ->]; reflexivity. Qed.

Lemma compareUsers_consistent (f o : string) :
  consistent localeCompare ->
  f = "fullName" \/ f = "email" ->
  consistent (compareUsers {| field := f; order := o |}).
Proof.
  intros [Hsgn Htrans] Hf. split.
  - intros a b. rewrite !compareUsers_sortKey by exact Hf.
    destruct (String.eqb o "asc"); apply Hsgn.
  - intros a b c. rewrite !compareUsers_sortKey by exact Hf.
    destruct (String.eqb o "asc"); eauto.
Qed.

(** C2.  With a consistent [localeCompare], for each of the four sort
    settings the derived list is the filtered list stable-sorted by the
    chosen field in the chosen direction; and, [localeCompare] placing
    "Alice" before "Bob", the users Bob, Alice sorted by [fullName]
    ascending come out as Alice, Bob. *)
Theorem filteredUser_stableSorted :
  consistent localeCompare ->
  0 < localeCompare "Bob" "Alice" ->
  (forall s : State,
     field (sortOrder s) = "fullName" \/ field (sortOrder s) = "email" ->
     order (sortOrder s) = "asc" \/ order (sortOrder s) = "desc" ->
     stableSorted
       (fun a b => inDirection (order (sortOrder s))
                     (sortKey (field (sortOrder s)) a)
                     (sortKey (field (sortOrder s)) b))
       (tiedKeys (field (sortOrder s)))
       (List.filter (matchesQuery (searchQuery s)) (users s))
       (filteredUser s)) /\
  (forall (s : State) (bob alice : User),
     fullName bob = "Bob" -> fullName alice = "Alice" ->
     users s = [bob; alice] ->
     matchesQuery (searchQuery s) bob = true ->
     matchesQuery (searchQuery s) alice = true ->
     sortOrder s = {| field := "fullName"; order := "asc" |} ->
     filteredUser s = [alice; bob]).
Proof.
  intros Hlc Hab. split.
  - intros s Hf Ho. unfold filteredUser.
    destruct (sortOrder s) as [f o]. cbn [field order] in *.
    pose proof (compareUsers_consistent f o Hlc Hf) as Hcmp.
    eapply stableSorted_ext; [| |apply (sort_stableSorted _ Hcmp)].
    + intros a b. unfold notAfter. rewrite compareUsers_sortKey by exact Hf.
      unfold inDirection. destruct Ho as [-> | ->]; cbn; [tauto|].
      intros H. destruct Hlc as [Hsgn _].
      specialize (Hsgn (sortKey f a) (sortKey f b)).
      destruct (Z.sgn_spec (localeCompare (sortKey f a) (sortKey f b)))
        as [[? ?]|[[? ?]|[? ?]]];
      destruct (Z.sgn_spec (localeCompare (sortKey f b) (sortKey f a)))
        as [[? ?]|[[? ?]|[? ?]]]; lia.
    + intros a b. unfold tie. rewrite compareUsers_sortKey by exact Hf.
      unfold tiedKeys. destruct Ho as [-> | ->]; cbn; [reflexivity|].
      destruct Hlc as [Hsgn _].
      specialize (Hsgn (sortKey f a) (sortKey f b)).
      pose proof (Z.sgn_null_iff (localeCompare (sortKey f a) (sortKey f b))).
      pose proof (Z.sgn_null_iff (localeCompare (sortKey f b) (sortKey f a))).
      destruct (Z.eqb_spec (localeCompare (sortKey f b) (sortKey f a)) 0),
               (Z.eqb_spec (localeCompare (sortKey f a) (sortKey f b)) 0);
        try reflexivity; exfalso; lia.
  - intros s bob alice Hbob Halice Husers Hmb Hma Hso.
    unfold filteredUser. rewrite Husers, Hso. cbn [List.filter].
    rewrite Hmb, Hma. cbn [sort foldr sortInsert].
    rewrite compareUsers_sortKey by (now left).
    cbn. rewrite Hbob, Halice.
    destruct (Z.leb_spec (localeCompare "Bob" "Alice") 0); [lia|reflexivity].
Qed.

(** *** The handlers *)

(** Unfolds a handler down to the calls of [respond]. *)
Ltac run_handler :=
  unfold exec, onSubmit, onInput, createUser, updateUser, deleteUser, fetchUsers,
    handleCancelClick, handleAddClick, handleEditClick, handleSearchChange,
    handleSortChange, tryCatch, api_get, api_post, api_put, api_delete,
    request, console_error, router_push, emit, setUsers, setNewUser,
    setEditUser, setShowForm, setSearchQuery, setSortOrder, setState, getState,
    mbind, M_bind, mret, M_ret;
  cbn [view backend trace fst snd].

(** Closes an equation between two spellings of one trace. *)
Ltac same_trace :=
  rewrite <- ?app_assoc; cbn [app]; rewrite ?app_nil_r; reflexivity.

(** Rewrites with the answer the backend gives, then goes on. *)
Ltac answer_with H := rewrite H; cbn [view backend trace fst snd].

Lemma requestsOf_app (t t' : list Event) :
  requestsOf (t ++ t') = requestsOf t ++ requestsOf t'.
Proof. apply omap_app. Qed.

Lemma fetchUsers_resolved (w : World) (data : list User) (srv : Server) :
  respond (backend w) {| method := GET; url := "/users"; body := None |}
    = (Resolve data, srv) ->
  fetchUsers w =
    (Returned tt,
     {| view := {| users := data; newUser := newUser (view w);
                   editUser := editUser (view w); showForm := showForm (view w);
                   searchQuery := searchQuery (view w);
                   sortOrder := sortOrder (view w) |};
        backend := srv;
        trace := trace w ++ [EvRequest {| method := GET; url := "/users"; body := None |}] |}).
Proof. intros H. run_handler. unfold apiUrl. now answer_with H. Qed.

Lemma fetchUsers_rejected (w : World) (error : AxiosError) (srv : Server) :
  respond (backend w) {| method := GET; url := "/users"; body := None |}
    = (Reject error, srv) ->
  fetchUsers w =
    (Returned tt,
     {| view := view w;
        backend := srv;
        trace := trace w
                 ++ [EvRequest {| method := GET; url := "/users"; body := None |};
                     EvConsoleError "Error fetching users:" error]
                 ++ (if decide (status error = Some 401)
                     then [EvRouterPush "/login"] else []) |}).
Proof.
  intros H. run_handler. unfold apiUrl. answer_with H.
  destruct (decide (status error = Some 401)); cbn [view backend trace];
    same_trace.
Qed.

(** The list fetch never throws, issues one request, and touches no
    state but [users]. *)
Lemma fetchUsers_frame (w : World) :
  fst (fetchUsers w) = Returned tt /\
  newUser (view (exec fetchUsers w)) = newUser (view w) /\
  editUser (view (exec fetchUsers w)) = editUser (view w) /\
  showForm (view (exec fetchUsers w)) = showForm (view w) /\
  searchQuery (view (exec fetchUsers w)) = searchQuery (view w) /\
  sortOrder (view (exec fetchUsers w)) = sortOrder (view w) /\
  requestsOf (trace (exec fetchUsers w)) =
    requestsOf (trace w) ++ [{| method := GET; url := "/users"; body := None |}].
Proof.
  unfold exec.
  destruct (respond (backend w) {| method := GET; url := "/users"; body := None |})
    as [[data|error] srv] eqn:H.
  - rewrite (fetchUsers_resolved _ _ _ H). cbn.
    now rewrite requestsOf_app.
  - rewrite (fetchUsers_rejected _ _ _ H). cbn.
    rewrite !requestsOf_app.
    now destruct (decide (status error = Some 401)).
Qed.

Lemma fetchUsers_trace (w : World) :
  exists rest : list Event, trace (exec fetchUsers w) = trace w ++ rest.
Proof.
  unfold exec.
  destruct (respond (backend w) {| method := GET; url := "/users"; body := None |})
    as [[data|error] srv] eqn:H.
  - rewrite (fetchUsers_resolved _ _ _ H). now eexists.
  - rewrite (fetchUsers_rejected _ _ _ H). now eexists.
Qed.

(** Finishes a success path: the fetch returns, and what follows it
    only closes the form. *)
Ltac fold_refetch refetched :=
  subst refetched; unfold exec;
  match goal with |- context [fetchUsers ?w1] =>
    let Hret := fresh "Hret" in
    let Hn := fresh in let He := fresh in let Hq := fresh in let Ho := fresh in
    destruct (fetchUsers_frame w1) as (Hret & Hn & He & _ & Hq & Ho & _);
    unfold exec in Hn, He, Hq, Ho;
    destruct (fetchUsers w1) as [out w2];
    cbn [fst snd view backend trace newUser editUser searchQuery sortOrder] in *;
    subst out; cbn [fst snd view backend trace];
    rewrite ?Hn, ?He, ?Hq, ?Ho; reflexivity
  end.

(** C3.  When its request is rejected, each of the four network
    operations returns normally, having logged the error to the console;
    the state is as it was; and the router is called, with [/login],
    only by the list fetch on status 401. *)
Theorem request_errors_caught_and_logged :
  (forall (w : World) (error : AxiosError) (srv : Server),
     respond (backend w) {| method := GET; url := "/users"; body := None |}
       = (Reject error, srv) ->
     fetchUsers w =
       (Returned tt,
        {| view := view w; backend := srv;
           trace := trace w
                    ++ [EvRequest {| method := GET; url := "/users"; body := None |};
                        EvConsoleError "Error fetching users:" error]
                    ++ (if decide (status error = Some 401)
                        then [EvRouterPush "/login"] else []) |})) /\
  (forall (w : World) (error : AxiosError) (srv : Server),
     respond (backend w)
       {| method := POST; url := "/users"; body := Some (toObject (newUser (view w))) |}
       = (Reject error, srv) ->
     createUser w =
       (Returned tt,
        {| view := view w; backend := srv;
           trace := trace w
                    ++ [EvRequest {| method := POST; url := "/users";
                                     body := Some (toObject (newUser (view w))) |};
                        EvConsoleError "Error creating user:" error] |})) /\
  (forall (w : World) (edited : User) (error : AxiosError) (srv : Server),
     editUser (view w) = Some edited ->
     respond (backend w)
       {| method := PUT; url := itemUrl (id edited); body := Some (toObject edited) |}
       = (Reject error, srv) ->
     updateUser w =
       (Returned tt,
        {| view := view w; backend := srv;
           trace := trace w
                    ++ [EvRequest {| method := PUT; url := itemUrl (id edited);
                                     body := Some (toObject edited) |};
                        EvConsoleError "Error updating user:" error] |})) /\
  (forall (w : World) (k : Z) (error : AxiosError) (srv : Server),
     respond (backend w) {| method := DELETE; url := itemUrl k; body := None |}
       = (Reject error, srv) ->
     deleteUser k w =
       (Returned tt,
        {| view := view w; backend := srv;
           trace := trace w
                    ++ [EvRequest {| method := DELETE; url := itemUrl k; body := None |};
                        EvConsoleError "Error deleting user:" error] |})).
Proof.
  repeat split.
  - exact fetchUsers_rejected.
  - intros w error srv H. run_handler. unfold apiUrl. answer_with H.
    same_trace.
  - intros w edited error srv He H. run_handler. rewrite He. answer_with H.
    same_trace.
  - intros w k error srv H. run_handler. answer_with H.
    same_trace.
Qed.

(** Unfolds a handler but leaves the list fetch it ends with folded. *)
Ltac run_to_fetch :=
  unfold exec, createUser, updateUser, deleteUser,
    tryCatch, api_post, api_put, api_delete,
    request, console_error, emit, setNewUser,
    setEditUser, setShowForm, setState, getState,
    mbind, M_bind, mret, M_ret;
  cbn [view backend trace fst snd].

Lemma itemUrl_eq (k : Z) : itemUrl k = "/users/" +:+ numberToString k.
Proof. reflexivity. Qed.

(** The body sent for a record holds each of its five properties. *)
Lemma toObject_lookup (u : User) :
  toObject u !! "id" = Some (JNum (id u)) /\
  toObject u !! "fullName" = Some (JStr (fullName u)) /\
  toObject u !! "mobileNumber" = Some (JStr (mobileNumber u)) /\
  toObject u !! "email" = Some (JStr (email u)) /\
  toObject u !! "roles" = Some (JStr (roles u)).
Proof. repeat split. Qed.

(** C4, as the code has it.  Whatever the draft, [createUser] first
    sends POST [/users] with the draft record as body, and that body
    has the draft's [id] among its properties. *)
Theorem createUser_submits_draft_with_id (w : World) :
  (exists rest : list Event,
     trace (exec createUser w) =
     trace w
     ++ EvRequest {| method := POST; url := "/users";
                     body := Some (toObject (newUser (view w))) |}
     :: rest) /\
  toObject (newUser (view w)) !! "id" = Some (JNum (id (newUser (view w)))).
Proof.
  split; [|reflexivity].
  run_to_fetch. unfold apiUrl.
  destruct (respond (backend w) _) as [[data|error] srv].
  - cbn [view backend trace].
    match goal with |- context [fetchUsers ?w1] =>
      destruct (fetchUsers_frame w1) as (Hret & _);
      pose proof (fetchUsers_trace w1) as [rest Hrest];
      unfold exec in Hrest;
      destruct (fetchUsers w1) as [out w2]
    end.
    cbn [fst snd] in *. subst out. cbn [view backend trace snd].
    exists rest. rewrite Hrest. cbn [trace]. same_trace.
  - cbn [view backend trace snd]. eexists. same_trace.
Qed.

(** C5.  When the POST of the draft to [/users] succeeds, [createUser]
    resets the draft to the placeholder record, fetches the list again
    and closes the form; the requests issued are that POST, whose body
    carries the fields of the draft, and the GET of the list. *)
Theorem createUser_on_success (w : World) (data : list User) (srv : Server) :
  respond (backend w)
    {| method := POST; url := "/users"; body := Some (toObject (newUser (view w))) |}
    = (Resolve data, srv) ->
  let refetched :=
    exec fetchUsers
      {| view := {| users := users (view w); newUser := emptyUser;
                    editUser := editUser (view w); showForm := showForm (view w);
                    searchQuery := searchQuery (view w);
                    sortOrder := sortOrder (view w) |};
         backend := srv;
         trace := trace w
                  ++ [EvRequest {| method := POST; url := "/users";
                                   body := Some (toObject (newUser (view w))) |}] |} in
  createUser w =
    (Returned tt,
     {| view := {| users := users (view refetched); newUser := emptyUser;
                   editUser := editUser (view w); showForm := false;
                   searchQuery := searchQuery (view w);
                   sortOrder := sortOrder (view w) |};
        backend := backend refetched;
        trace := trace refetched |}) /\
  requestsOf (trace refetched) =
    requestsOf (trace w)
    ++ [ {| method := POST; url := "/users"; body := Some (toObject (newUser (view w))) |};
         {| method := GET; url := "/users"; body := None |} ] /\
  toObject (newUser (view w)) !! "fullName" = Some (JStr (fullName (newUser (view w)))) /\
  toObject (newUser (view w)) !! "mobileNumber"
    = Some (JStr (mobileNumber (newUser (view w)))) /\
  toObject (newUser (view w)) !! "email" = Some (JStr (email (newUser (view w)))) /\
  toObject (newUser (view w)) !! "roles" = Some (JStr (roles (newUser (view w)))).
Proof.
  intros H refetched. split; [|split; [|repeat split]].
  - run_to_fetch. unfold apiUrl. answer_with H. fold emptyUser.
    fold_refetch refetched.
  - subst refetched.
    match goal with |- context [exec fetchUsers ?w1] =>
      destruct (fetchUsers_frame w1) as (_ & _ & _ & _ & _ & _ & ->)
    end.
    cbn [trace]. rewrite requestsOf_app. cbn. same_trace.
Qed.

(** C6.  With a record under edit, when the PUT of that record to
    [/users/k], [k] its id as the host writes it in the template
    literal, succeeds, [updateUser] clears the edit state, fetches the
    list again and closes the form. *)
Theorem updateUser_on_success (w : World) (edited : User)
    (data : list User) (srv : Server) :
  editUser (view w) = Some edited ->
  respond (backend w)
    {| method := PUT; url := "/users/" +:+ numberToString (id edited);
       body := Some (toObject edited) |}
    = (Resolve data, srv) ->
  let refetched :=
    exec fetchUsers
      {| view := {| users := users (view w); newUser := newUser (view w);
                    editUser := None; showForm := showForm (view w);
                    searchQuery := searchQuery (view w);
                    sortOrder := sortOrder (view w) |};
         backend := srv;
         trace := trace w
                  ++ [EvRequest {| method := PUT; url := "/users/" +:+ numberToString (id edited);
                                   body := Some (toObject edited) |}] |} in
  updateUser w =
    (Returned tt,
     {| view := {| users := users (view refetched); newUser := newUser (view w);
                   editUser := None; showForm := false;
                   searchQuery := searchQuery (view w);
                   sortOrder := sortOrder (view w) |};
        backend := backend refetched;
        trace := trace refetched |}) /\
  requestsOf (trace refetched) =
    requestsOf (trace w)
    ++ [ {| method := PUT; url := "/users/" +:+ numberToString (id edited);
            body := Some (toObject edited) |};
         {| method := GET; url := "/users"; body := None |} ].
Proof.
  intros He H refetched. split.
  - run_to_fetch. rewrite He. rewrite itemUrl_eq. answer_with H.
    fold_refetch refetched.
  - subst refetched.
    match goal with |- context [exec fetchUsers ?w1] =>
      destruct (fetchUsers_frame w1) as (_ & _ & _ & _ & _ & _ & ->)
    end.
    cbn [trace]. rewrite requestsOf_app. cbn. same_trace.
Qed.

(** C7.  For every id [k], when the DELETE of [/users/k], [k] as the
    host writes it in the template literal, succeeds, [deleteUser k]
    fetches the list again and changes nothing else; for [k = 5], which
    the host writes as its decimal numeral, the request goes to
    [/users/5]. *)
Theorem deleteUser_on_success (w : World) (k : Z) (data : list User) (srv : Server) :
  respond (backend w)
    {| method := DELETE; url := "/users/" +:+ numberToString k; body := None |}
    = (Resolve data, srv) ->
  let refetched :=
    exec fetchUsers
      {| view := view w;
         backend := srv;
         trace := trace w
                  ++ [EvRequest {| method := DELETE; url := "/users/" +:+ numberToString k;
                                   body := None |}] |} in
  deleteUser k w = (Returned tt, refetched) /\
  requestsOf (trace refetched) =
    requestsOf (trace w)
    ++ [ {| method := DELETE; url := "/users/" +:+ numberToString k; body := None |};
         {| method := GET; url := "/users"; body := None |} ] /\
  (writesDecimal numberToString ->
   "/users/" +:+ numberToString 5 = "/users/5").
Proof.
  intros H refetched. split; [|split; [|intros Hhost; now rewrite Hhost]].
  - run_to_fetch. rewrite itemUrl_eq. answer_with H.
    subst refetched. unfold exec.
    match goal with |- context [fetchUsers ?w1] =>
      destruct (fetchUsers_frame w1) as (Hret & _);
      destruct (fetchUsers w1) as [out w2]
    end.
    cbn [fst snd] in *. now subst out.
  - subst refetched.
    match goal with |- context [exec fetchUsers ?w1] =>
      destruct (fetchUsers_frame w1) as (_ & _ & _ & _ & _ & _ & ->)
    end.
    cbn [trace]. rewrite requestsOf_app. cbn. same_trace.
Qed.

(** C8.  In every state, [handleCancelClick] resets the draft to the
    placeholder record (id 0), sets [editUser] to null and closes the
    form; [users], [searchQuery] and [sortOrder] stay as they are, and
    nothing is sent, logged or navigated to. *)
Theorem handleCancelClick_clears (w : World) :
  handleCancelClick w =
    (Returned tt,
     {| view := {| users := users (view w);
                   newUser := {| id := 0; fullName := ""; mobileNumber := "";
                                 email := ""; roles := "" |};
                   editUser := None;
                   showForm := false;
                   searchQuery := searchQuery (view w);
                   sortOrder := sortOrder (view w) |};
        backend := backend w;
        trace := trace w |}) /\
  requestsOf (trace (exec handleCancelClick w)) = requestsOf (trace w).
Proof. split; reflexivity. Qed.

(** Every action leaves the id of the draft as it is or resets it to 0. *)
Lemma dispatch_newUser_id (a : Action) (w : World) :
  id (newUser (view (exec (dispatch a) w))) = id (newUser (view w)) \/
  id (newUser (view (exec (dispatch a) w))) = 0.
Proof.
  destruct a; unfold dispatch; run_handler;
    repeat match goal with
           | |- context [editUser (view w)] =>
               destruct (editUser (view w)); cbn [view backend trace fst snd]
           | |- context [respond ?srv ?r] =>
               destruct (respond srv r) as [[?|?] ?]; cbn [view backend trace fst snd]
           | |- context [decide ?P] => destruct (decide P); cbn [view backend trace fst snd]
           end;
    auto.
Qed.

(** C9.  The draft [newUser] has id 0 throughout: it has in the initial
    state, every action (form edits, a successful create and all the
    others) keeps it so, and so it has in every state a session reaches. *)
Theorem newUser_id_placeholder :
  id (newUser initialState) = 0 /\
  (forall (a : Action) (w : World),
     id (newUser (view w)) = 0 -> id (newUser (view (exec (dispatch a) w))) = 0) /\
  (forall w : World, reachable w -> id (newUser (view w)) = 0).
Proof.
  assert (Hstep : forall (a : Action) (w : World),
             id (newUser (view w)) = 0 ->
             id (newUser (view (exec (dispatch a) w))) = 0).
  { intros a w H. destruct (dispatch_newUser_id a w) as [E|E]; congruence. }
  split; [reflexivity|]. split; [exact Hstep|].
  induction 1 as [srv|w a Hw IH]; [reflexivity|].
  now apply Hstep.
Qed.

(** C10.  With no record under edit, [updateUser] does nothing: the
    state, the backend and the trace (so the requests sent) are as
    before. *)
Theorem updateUser_without_edit (w : World) :
  editUser (view w) = None ->
  updateUser w = (Returned tt, w) /\
  requestsOf (trace (exec updateUser w)) = requestsOf (trace w).
Proof.
  intros H. assert (E : updateUser w = (Returned tt, w)).
  { run_handler. now rewrite H. }
  split; [exact E|]. unfold exec. now rewrite E.
Qed.

(** *** Further properties of the handlers *)

(** Runs every path of a handler: the edit state is null or not, each
    request resolves or is rejected, the status is 401 or not. *)
Ltac every_path w :=
  let Eedit := fresh "Eedit" in
  unfold dispatch; run_handler;
  cbn [view backend trace fst snd users newUser editUser showForm
       searchQuery sortOrder];
  destruct (editUser (view w)) eqn:Eedit;
  cbn [view backend trace fst snd users newUser editUser showForm
       searchQuery sortOrder];
  repeat match goal with
         | |- context [editUser (view w)] =>
             rewrite Eedit;
             cbn [view backend trace fst snd users newUser editUser showForm
                  searchQuery sortOrder]
         | |- context [respond ?srv ?r] =>
             destruct (respond srv r) as [[?|?] ?];
             cbn [view backend trace fst snd users newUser editUser showForm
                  searchQuery sortOrder];
             rewrite ?Eedit
         | |- context [decide ?P] =>
             destruct (decide P);
             cbn [view backend trace fst snd users newUser editUser showForm
                  searchQuery sortOrder];
             rewrite ?Eedit
         end.

(** X1.  When the GET of [/users] resolves, [fetchUsers] replaces the
    list by the data received, whatever the list was, and changes
    nothing else: no other state, nothing logged, no navigation. *)
Theorem fetchUsers_replaces_list (w : World) (data : list User) (srv : Server) :
  respond (backend w) {| method := GET; url := "/users"; body := None |}
    = (Resolve data, srv) ->
  fetchUsers w =
    (Returned tt,
     {| view := {| users := data; newUser := newUser (view w);
                   editUser := editUser (view w); showForm := showForm (view w);
                   searchQuery := searchQuery (view w);
                   sortOrder := sortOrder (view w) |};
        backend := srv;
        trace := trace w ++ [EvRequest {| method := GET; url := "/users"; body := None |}] |}).
Proof. apply fetchUsers_resolved. Qed.

(** X2.  No action lets an error escape: whatever the backend answers,
    every handler returns normally. *)
Theorem dispatch_never_throws (a : Action) (w : World) :
  fst (dispatch a w) = Returned tt.
Proof. destruct a; every_path w; reflexivity. Qed.

(** X4.  In every state a session reaches, the sort setting is one of
    the four of the drop-down: the field is [fullName] or [email], the
    order [asc] or [desc]. *)
Theorem sortOrder_is_an_option (w : World) :
  reachable w ->
  (field (sortOrder (view w)) = "fullName" \/ field (sortOrder (view w)) = "email") /\
  (order (sortOrder (view w)) = "asc" \/ order (sortOrder (view w)) = "desc").
Proof.
  induction 1 as [srv|w a Hw IH].
  - split; now left.
  - destruct a; try (every_path w; exact IH).
    destruct o; cbn; auto.
Qed.

(** X5.  Selecting an option of the drop-down sets the field and the
    order to the two parts of its value, and changes nothing else in
    the state or the environment. *)
Theorem handleSortChange_sets_option (o : SortOption) (w : World) :
  let w' := exec (handleSortChange o) w in
  field (sortOrder (view w')) +:+ "-" +:+ order (sortOrder (view w')) = optionValue o /\
  field (sortOrder (view w')) <> "" /\
  (order (sortOrder (view w')) = "asc" \/ order (sortOrder (view w')) = "desc") /\
  users (view w') = users (view w) /\
  newUser (view w') = newUser (view w) /\
  editUser (view w') = editUser (view w) /\
  showForm (view w') = showForm (view w) /\
  searchQuery (view w') = searchQuery (view w) /\
  backend w' = backend w /\
  trace w' = trace w.
Proof. destruct o; cbn; repeat split; auto; discriminate. Qed.

(** X6.  The actions that do not call [api] leave the environment alone
    (no request, nothing logged, no navigation) and the list as it is. *)
Theorem local_actions_are_local (a : Action) (w : World) :
  callsApi a = false ->
  backend (exec (dispatch a) w) = backend w /\
  trace (exec (dispatch a) w) = trace w /\
  users (view (exec (dispatch a) w)) = users (view w).
Proof.
  destruct a; try discriminate; intros _; every_path w; repeat split.
Qed.

(** *** What a session sends, logs and navigates to *)

Lemma navigationsOf_app (t t' : list Event) :
  navigationsOf (t ++ t') = navigationsOf t ++ navigationsOf t'.
Proof. apply omap_app. Qed.

Lemma requestsOf_request (r : Request) : requestsOf [EvRequest r] = [r].
Proof. reflexivity. Qed.

Lemma requestsOf_console (m : string) (e : AxiosError) :
  requestsOf [EvConsoleError m e] = [].
Proof. reflexivity. Qed.

Lemma requestsOf_push (p : string) : requestsOf [EvRouterPush p] = [].
Proof. reflexivity. Qed.

Lemma navigationsOf_request (r : Request) : navigationsOf [EvRequest r] = [].
Proof. reflexivity. Qed.

Lemma navigationsOf_console (m : string) (e : AxiosError) :
  navigationsOf [EvConsoleError m e] = [].
Proof. reflexivity. Qed.

Lemma navigationsOf_push (p : string) : navigationsOf [EvRouterPush p] = [p].
Proof. reflexivity. Qed.

(** Reads the requests and the navigations off a trace built by appending. *)
Ltac read_trace :=
  rewrite ?requestsOf_app, ?navigationsOf_app,
    ?requestsOf_request, ?requestsOf_console, ?requestsOf_push,
    ?navigationsOf_request, ?navigationsOf_console, ?navigationsOf_push,
    ?app_nil_r.

(** One step of the invariant of X7. *)
Lemma dispatch_wellFormed (a : Action) (w : World) :
  Forall wellFormed (requestsOf (trace w)) ->
  Forall wellFormed (requestsOf (trace (exec (dispatch a) w))).
Proof.
  assert (Hget : wellFormed {| method := GET; url := apiUrl; body := None |})
    by (split; reflexivity).
  assert (Hpost : forall u, wellFormed
            {| method := POST; url := apiUrl; body := Some (toObject u) |})
    by (intros u; split; [reflexivity | now exists u]).
  assert (Hput : forall u, wellFormed
            {| method := PUT; url := itemUrl (id u); body := Some (toObject u) |})
    by (intros u; now exists u).
  assert (Hdelete : forall k, wellFormed
            {| method := DELETE; url := itemUrl k; body := None |})
    by (intros k; split; [now exists k | reflexivity]).
  destruct a; every_path w; intros H; read_trace;
    rewrite ?Forall_app; repeat split; auto.
Qed.

(** X7.  Every request of a session has one of four shapes: GET [/users]
    without body; POST [/users] with a user record as body; PUT
    [/users/k] with a user record as body whose id is [k]; DELETE
    [/users/k] without body.  In the URL [k] stands as the host writes
    the number. *)
Theorem requests_wellFormed (w : World) :
  reachable w -> Forall wellFormed (requestsOf (trace w)).
Proof.
  induction 1 as [srv|w a Hw IH]; [constructor|].
  now apply dispatch_wellFormed.
Qed.

(** One step of the invariant of X8. *)
Lemma dispatch_login_only (a : Action) (w : World) :
  Forall (eq "/login") (navigationsOf (trace w)) ->
  Forall (eq "/login") (navigationsOf (trace (exec (dispatch a) w))).
Proof.
  destruct a; every_path w; intros H; read_trace;
    rewrite ?Forall_app; repeat split; auto.
Qed.

(** X8.  A session navigates nowhere but to [/login]. *)
Theorem navigates_to_login_only (w : World) :
  reachable w -> Forall (eq "/login") (navigationsOf (trace w)).
Proof.
  induction 1 as [srv|w a Hw IH]; [constructor|].
  now apply dispatch_login_only.
Qed.

(** X9.  An action sends at most two requests, and when it sends two the
    first is not a GET and the second is the GET of the list: a list
    fetch follows a mutation, never the other way round. *)
Theorem dispatch_requests (a : Action) (w : World) :
  exists rs : list Request,
    requestsOf (trace (exec (dispatch a) w)) = requestsOf (trace w) ++ rs /\
    (rs = [] \/
     (exists r, rs = [r]) \/
     (exists r, method r <> GET /\
                rs = [r; {| method := GET; url := "/users"; body := None |}])).
Proof.
  destruct a; every_path w; read_trace; rewrite <- ?app_assoc;
    (eexists; split; [first [reflexivity | symmetry; apply app_nil_r]|]);
    cbn [app];
    first [ left; reflexivity
          | right; left; eexists; reflexivity
          | right; right; eexists; split; [|reflexivity]; discriminate ].
Qed.

(** One step of the invariant of X10. *)
Lemma dispatch_posted_draft (a : Action) (w : World) :
  id (newUser (view w)) = 0 /\ roles (newUser (view w)) = "" /\
  Forall (fun r => method r = POST ->
                   exists u, body r = Some (toObject u) /\ id u = 0 /\ roles u = "")
         (requestsOf (trace w)) ->
  id (newUser (view (exec (dispatch a) w))) = 0 /\
  roles (newUser (view (exec (dispatch a) w))) = "" /\
  Forall (fun r => method r = POST ->
                   exists u, body r = Some (toObject u) /\ id u = 0 /\ roles u = "")
         (requestsOf (trace (exec (dispatch a) w))).
Proof.
  destruct a; every_path w; intros (Hid & Hroles & H); read_trace;
    rewrite ?Forall_app; repeat split; auto;
    repeat constructor; cbn [method body]; try discriminate;
    intros _; eexists; repeat split; eauto.
Qed.

(** X10.  Every POST of a session carries a record with id 0 and empty
    [roles]: the form has no input for either, so neither can be set. *)
Theorem posts_carry_placeholders (w : World) :
  reachable w ->
  Forall (fun r => method r = POST ->
                   exists b, body r = Some b /\
                             b !! "id" = Some (JNum 0) /\
                             b !! "roles" = Some (JStr ""))
         (requestsOf (trace w)).
Proof.
  intros Hw.
  assert (id (newUser (view w)) = 0 /\ roles (newUser (view w)) = "" /\
          Forall (fun r => method r = POST ->
                   exists u, body r = Some (toObject u) /\ id u = 0 /\ roles u = "")
                 (requestsOf (trace w))) as (_ & _ & H).
  { induction Hw as [srv|w a Hw IH].
    - repeat split. constructor.
    - now apply dispatch_posted_draft. }
  eapply Forall_impl; [exact H|].
  intros r Hr Hpost. destruct (Hr Hpost) as (u & Hb & Hid & Hroles).
  exists (toObject u). split; [exact Hb|].
  destruct (toObject_lookup u) as (Eid & _ & _ & _ & Eroles).
  rewrite Eid, Eroles, Hid, Hroles. now split.
Qed.

(** *** The form, from click to request *)

Lemma createUser_first_request (w : World) :
  exists rest : list Event,
    trace (exec createUser w) =
    trace w
    ++ EvRequest {| method := POST; url := "/users";
                    body := Some (toObject (newUser (view w))) |}
    :: rest.
Proof.
  run_to_fetch. unfold apiUrl.
  destruct (respond (backend w) _) as [[data|error] srv];
    cbn [view backend trace snd].
  - match goal with |- context [fetchUsers ?w1] =>
      destruct (fetchUsers_frame w1) as (Hret & _);
      destruct (fetchUsers_trace w1) as [rest Hrest];
      unfold exec in Hrest;
      destruct (fetchUsers w1) as [out w2]
    end.
    cbn [fst snd] in *. subst out. cbn [view backend trace snd].
    exists rest. rewrite Hrest. cbn [trace]. same_trace.
  - eexists. same_trace.
Qed.

Lemma updateUser_first_request (w : World) (edited : User) :
  editUser (view w) = Some edited ->
  exists rest : list Event,
    trace (exec updateUser w) =
    trace w
    ++ EvRequest {| method := PUT; url := "/users/" +:+ numberToString (id edited);
                    body := Some (toObject edited) |}
    :: rest.
Proof.
  intros He. run_to_fetch. rewrite He, itemUrl_eq.
  destruct (respond (backend w) _) as [[data|error] srv];
    cbn [view backend trace snd].
  - match goal with |- context [fetchUsers ?w1] =>
      destruct (fetchUsers_frame w1) as (Hret & _);
      destruct (fetchUsers_trace w1) as [rest Hrest];
      unfold exec in Hrest;
      destruct (fetchUsers w1) as [out w2]
    end.
    cbn [fst snd] in *. subst out. cbn [view backend trace snd].
    exists rest. rewrite Hrest. cbn [trace]. same_trace.
  - eexists. same_trace.
Qed.

(** X11.  Editing a record: after the Edit button of a list item, input
    in the three fields and the submit button, the first thing sent is a
    PUT to the item of the record's id (written as the host writes the
    number), whose body has the three values typed and the id and roles
    of the record as they were. *)
Theorem edit_round_trip (w : World) (u : User) (name mail mobile : string) :
  exists rest : list Event,
    trace (run [EditClick u; FullNameInput name; EmailInput mail;
                MobileNumberInput mobile; SubmitClick] w) =
    trace w
    ++ EvRequest
         {| method := PUT; url := "/users/" +:+ numberToString (id u);
            body := Some (toObject {| id := id u; fullName := name;
                                      mobileNumber := mobile; email := mail;
                                      roles := roles u |}) |}
    :: rest.
Proof.
  cbn [run foldl].
  set (w4 := exec (dispatch (MobileNumberInput mobile)) _).
  assert (He : editUser (view w4) =
               Some {| id := id u; fullName := name; mobileNumber := mobile;
                       email := mail; roles := roles u |}) by reflexivity.
  assert (Ht : trace w4 = trace w) by reflexivity.
  destruct (updateUser_first_request w4 _ He) as [rest Hrest].
  exists rest.
  assert (Hsubmit : exec (dispatch SubmitClick) w4 = exec updateUser w4).
  { unfold exec, dispatch, onSubmit, getState, mbind, M_bind. now rewrite He. }
  rewrite Hsubmit, Hrest, Ht. reflexivity.
Qed.

(** X12.  Adding a user: after the Add button, input in the three fields
    and the submit button, the first thing sent is a POST to [/users]
    whose body has the three values typed and the id and roles of the
    draft (0 and empty in every state a session reaches). *)
Theorem add_round_trip (w : World) (name mail mobile : string) :
  exists rest : list Event,
    trace (run [AddClick; FullNameInput name; EmailInput mail;
                MobileNumberInput mobile; SubmitClick] w) =
    trace w
    ++ EvRequest
         {| method := POST; url := "/users";
            body := Some (toObject {| id := id (newUser (view w)); fullName := name;
                                      mobileNumber := mobile; email := mail;
                                      roles := roles (newUser (view w)) |}) |}
    :: rest.
Proof.
  cbn [run foldl].
  set (w4 := exec (dispatch (MobileNumberInput mobile)) _).
  assert (He : editUser (view w4) = None) by reflexivity.
  assert (Hn : newUser (view w4) =
               {| id := id (newUser (view w)); fullName := name;
                  mobileNumber := mobile; email := mail;
                  roles := roles (newUser (view w)) |}) by reflexivity.
  assert (Ht : trace w4 = trace w) by reflexivity.
  destruct (createUser_first_request w4) as [rest Hrest].
  exists rest.
  assert (Hsubmit : exec (dispatch SubmitClick) w4 = exec createUser w4).
  { unfold exec, dispatch, onSubmit, getState, mbind, M_bind. now rewrite He. }
  rewrite Hsubmit, Hrest, Ht, Hn. reflexivity.
Qed.

(** X13.  The inputs of the form are controlled: what is typed in one of
    them is what it shows next, and the heading, the other two inputs and
    the label of the button stay as they are, in add and in edit mode. *)
Theorem inputs_show_what_is_typed (w : World) (value : string)
    (heading name mail mobile label : string) :
  render (view w) = FormView heading name mail mobile label ->
  render (view (exec (dispatch (FullNameInput value)) w))
    = FormView heading value mail mobile label /\
  render (view (exec (dispatch (EmailInput value)) w))
    = FormView heading name value mobile label /\
  render (view (exec (dispatch (MobileNumberInput value)) w))
    = FormView heading name mail value label.
Proof.
  unfold render at 1.
  destruct (showForm (view w)) eqn:Eshow; [|discriminate].
  destruct (editUser (view w)) as [edited|] eqn:Eedit;
    intros [= <- <- <- <- <-];
    unfold render, exec, dispatch, onInput, getState, setEditUser, setNewUser,
      setState, mbind, M_bind;
    cbn [view fst snd]; rewrite Eedit;
    cbn [view fst snd showForm editUser newUser]; rewrite Eshow, ?Eedit;
    repeat split.
Qed.

(** X14.  What the buttons lead to.  Edit opens the form on the record
    of the item; Add opens it on the draft as it stands; Cancel shows
    the list again, as the search and sort settings make it; and after
    Cancel, Add opens an empty form. *)
Theorem buttons_switch_views (w : World) (u : User) :
  render (view (exec (dispatch (EditClick u)) w))
    = FormView "Edit User" (fullName u) (email u) (mobileNumber u) "Update" /\
  render (view (exec (dispatch AddClick) w))
    = FormView "Add New User" (fullName (newUser (view w))) (email (newUser (view w)))
        (mobileNumber (newUser (view w))) "Create" /\
  render (view (exec (dispatch CancelClick) w))
    = ListView (searchQuery (view w)) (filteredUser (view w)) /\
  render (view (run [CancelClick; AddClick] w))
    = FormView "Add New User" "" "" "" "Create".
Proof. repeat split. Qed.

Lemma render_after_add (w : World) :
  render (view (exec (dispatch AddClick) w))
  = FormView "Add New User" (fullName (newUser (view w))) (email (newUser (view w)))
      (mobileNumber (newUser (view w))) "Create".
Proof. reflexivity. Qed.

(** X15.  After a create that succeeds the list is shown, and the next
    Add opens an empty form: the draft sent does not come back. *)
Theorem create_success_clears_form (w : World) (data : list User) (srv : Server) :
  editUser (view w) = None ->
  respond (backend w)
    {| method := POST; url := "/users"; body := Some (toObject (newUser (view w))) |}
    = (Resolve data, srv) ->
  (exists items : list User,
     render (view (exec (dispatch SubmitClick) w))
       = ListView (searchQuery (view w)) items) /\
  render (view (run [SubmitClick; AddClick] w))
    = FormView "Add New User" "" "" "" "Create".
Proof.
  intros He H. cbn [run foldl].
  assert (Hsubmit : exec (dispatch SubmitClick) w = exec createUser w).
  { unfold exec, dispatch, onSubmit, getState, mbind, M_bind. now rewrite He. }
  rewrite !Hsubmit.
  assert (Hview : newUser (view (exec createUser w)) = emptyUser /\
                  showForm (view (exec createUser w)) = false /\
                  searchQuery (view (exec createUser w)) = searchQuery (view w)).
  { run_to_fetch. unfold apiUrl. answer_with H.
    match goal with |- context [fetchUsers ?w1] =>
      destruct (fetchUsers_frame w1) as (Hret & Hn & _ & _ & Hq & _);
      unfold exec in Hn, Hq;
      destruct (fetchUsers w1) as [out w2]
    end.
    cbn [fst snd view newUser searchQuery showForm] in *. subst out.
    cbn [fst snd view newUser searchQuery showForm]. now rewrite Hn, Hq. }
  destruct Hview as (Hn & Hs & Hq). split.
  - unfold render. rewrite Hs, Hq. now eexists.
  - rewrite render_after_add. now rewrite Hn.
Qed.

(** *** Further properties of the derived list *)

Lemma includes_empty (s : string) : includes s "" = true.
Proof. now destruct s. Qed.

Lemma includes_trans (s q q' : string) :
  includes s q = true -> includes q q' = true -> includes s q' = true.
Proof.
  rewrite !includes_spec. intros (a & b & ->) (c & d & ->).
  exists (a +:+ c), (d +:+ b). now rewrite !append_assoc.
Qed.

Lemma filter_all {A : Type} (f : A -> bool) (l : list A) :
  (forall x, f x = true) -> List.filter f l = l.
Proof.
  intros H. induction l as [|x l IH]; [reflexivity|].
  cbn [List.filter]. now rewrite H, IH.
Qed.

Lemma filter_partition {A : Type} (f : A -> bool) (l : list A) :
  Permutation l (List.filter f l ++ List.filter (fun x => negb (f x)) l).
Proof.
  induction l as [|x l IH]; [reflexivity|].
  cbn [List.filter]. destruct (f x); cbn [negb app].
  - now apply perm_skip.
  - rewrite <- Permutation_middle. now apply perm_skip.
Qed.

Lemma filteredUser_partition (s : State) :
  Permutation (users s)
    (filteredUser s
     ++ List.filter (fun u => negb (matchesQuery (searchQuery s) u)) (users s)).
Proof.
  unfold filteredUser.
  rewrite <- (sort_Permutation (compareUsers (sortOrder s))).
  apply filter_partition.
Qed.

(** X16.  The derived list and the users the search leaves out are, put
    together, a rearrangement of [users]: the list shows no user that is
    not there, and none more often than it is there. *)
Theorem filteredUser_rearranges (s : State) :
  Permutation (users s)
    (filteredUser s
     ++ List.filter (fun u => negb (matchesQuery (searchQuery s) u)) (users s)).
Proof. apply filteredUser_partition. Qed.

(** X17.  With an empty search box (the host's [toLowerCase] leaving
    the empty string as it is) the derived list is a rearrangement of all
    of [users]. *)
Theorem empty_query_shows_all (s : State) :
  toLowerCase "" = "" ->
  searchQuery s = "" -> Permutation (users s) (filteredUser s).
Proof.
  intros Hhost Hq. unfold filteredUser. rewrite Hq.
  rewrite <- (sort_Permutation (compareUsers (sortOrder s))).
  rewrite filter_all; [reflexivity|].
  intros u. unfold matchesQuery. cbv zeta.
  now rewrite Hhost, includes_empty.
Qed.

(** X18.  On ASCII queries, where the host's [toLowerCase] is
    [asciiLowerCase]: a query that contains another, case ignored, shows
    no user the other does not show.  Typing more ASCII text into the
    search box only narrows the list, and the letter case of an ASCII
    query makes no difference. *)
Theorem longer_query_narrows (s s' : State) (u : User) :
  lowersAscii toLowerCase ->
  isAscii (searchQuery s) = true ->
  isAscii (searchQuery s') = true ->
  users s' = users s ->
  isSubstringIgnoringCase (searchQuery s) (searchQuery s') ->
  In u (filteredUser s') -> In u (filteredUser s).
Proof.
  intros Hhost Ha Ha' Hu Hq. unfold filteredUser.
  rewrite <- !sort_In, !filter_In, Hu.
  apply (includes_toLowerCase _ _ Hhost Ha' Ha) in Hq.
  intros [Hin Hm]. split; [exact Hin|].
  unfold matchesQuery in *. apply orb_true_iff in Hm. apply orb_true_iff.
  destruct Hm as [Hm|Hm]; [left|right]; eapply includes_trans; eauto.
Qed.

(** X19.  The keys of the list items are distinct when the ids of
    [users] are. *)
Theorem itemKeys_distinct (s : State) :
  NoDup (map id (users s)) -> NoDup (itemKeys s).
Proof.
  unfold itemKeys. intros H.
  rewrite (Permutation_map id (filteredUser_partition s)), map_app in H.
  now apply NoDup_app in H as (H & _).
Qed.




Lemma compareUsers_id (o : string) (a b : User) :
  compareUsers {| field := "id"; order := o |} a b =
  if String.eqb o "asc" then id a - id b else id b - id a.
Proof. reflexivity. Qed.

(** X21.  With the sort field [id] the second branch of the comparison
    function is taken: the derived list is the filtered list stable-sorted
    by id, ascending for the order [asc] and descending for any other. *)
Theorem filteredUser_sorted_by_id (s : State) :
  field (sortOrder s) = "id" ->
  stableSorted
    (fun a b => if String.eqb (order (sortOrder s)) "asc"
                then id a <= id b else id b <= id a)
    (fun a b => id a =? id b)
    (List.filter (matchesQuery (searchQuery s)) (users s))
    (filteredUser s).
Proof.
  intros Hf. unfold filteredUser.
  destruct (sortOrder s) as [f o]. cbn [field order] in *. subst f.
  assert (Hcmp : consistent (compareUsers {| field := "id"; order := o |})).
  { split.
    - intros a b. rewrite !compareUsers_id.
      destruct (String.eqb o "asc"); rewrite <- Z.sgn_opp; f_equal; lia.
    - intros a b c. rewrite !compareUsers_id.
      destruct (String.eqb o "asc"); lia. }
  eapply stableSorted_ext; [| |apply (sort_stableSorted _ Hcmp)].
  - intros a b. unfold notAfter. rewrite compareUsers_id.
    destruct (String.eqb o "asc"); lia.
  - intros a b. unfold tie. rewrite compareUsers_id.
    destruct (String.eqb o "asc");
      destruct (Z.eqb_spec (id a) (id b));
      match goal with |- (?x =? 0) = _ => destruct (Z.eqb_spec x 0) end;
      try reflexivity; lia.
Qed.

(** *** Ascending and descending *)

Section SortReversed.
Context {A : Type} (compareFn : A -> A -> Z).
Hypothesis compareFn_consistent : consistent compareFn.

(** The comparison function with its arguments exchanged, as the
    descending branches of [compareUsers] call it. *)
Lemma exchanged_consistent : consistent (fun a b => compareFn b a).
Proof.
  destruct compareFn_consistent as [Hsgn Htrans]. split.
  - intros a b. apply Hsgn.
  - intros a b c Hab Hbc. exact (Htrans c b a Hbc Hab).
Qed.

Lemma StronglySorted_snoc (R : A -> A -> Prop) (l : list A) (a : A) :
  StronglySorted R l -> Forall (fun x => R x a) l -> StronglySorted R (l ++ [a]).
Proof.
  induction 1 as [|x l Hl IH Hx]; intros Ha; cbn [app].
  - repeat constructor.
  - apply Forall_cons in Ha as [Hxa Ha]. constructor; [now apply IH|].
    apply Forall_app. split; [exact Hx|]. now repeat constructor.
Qed.

Lemma StronglySorted_rev (R : A -> A -> Prop) (l : list A) :
  StronglySorted R l -> StronglySorted (fun a b => R b a) (rev l).
Proof.
  induction 1 as [|x l Hl IH Hx]; cbn [rev]; [constructor|].
  apply StronglySorted_snoc; [exact IH|].
  apply Forall_forall. intros y Hy.
  rewrite Forall_forall in Hx. apply Hx.
  apply list_elem_of_In. apply list_elem_of_In in Hy.
  now apply in_rev.
Qed.

Lemma tie_trans (x a b : A) :
  tie compareFn x a = true -> tie compareFn x b = true -> tie compareFn a b = true.
Proof.
  unfold tie. rewrite !Z.eqb_eq. intros Ha Hb.
  pose proof (compareFn_tie_flip _ compareFn_consistent _ _ Ha) as Ha'.
  pose proof (compareFn_tie_flip _ compareFn_consistent _ _ Hb) as Hb'.
  destruct compareFn_consistent as [_ Htrans].
  apply (Z.eqb_eq (compareFn a b) 0).
  apply (compareFn_tie _ (conj (proj1 compareFn_consistent) Htrans)).
  - apply (Htrans a x b); lia.
  - apply (Htrans b x a); lia.
Qed.

(** In a list without repetition whose elements never tie, at most one
    element ties with a given one. *)
Lemma filter_tie_short (x : A) (l : list A) :
  NoDup l ->
  (forall a b, In a l -> In b l -> tie compareFn a b = true -> a = b) ->
  List.filter (tie compareFn x) l = rev (List.filter (tie compareFn x) l).
Proof.
  intros Hnd Hties.
  assert (Hshort : forall a b, In a (List.filter (tie compareFn x) l) ->
                               In b (List.filter (tie compareFn x) l) -> a = b).
  { intros a b [Ha Hxa]%filter_In [Hb Hxb]%filter_In.
    apply Hties; [assumption..|]. now apply (tie_trans x). }
  assert (Hnd' : NoDup (List.filter (tie compareFn x) l)).
  { clear -Hnd. induction Hnd as [|a l Ha Hl IH]; cbn [List.filter]; [constructor|].
    destruct (tie compareFn x a); [|exact IH].
    constructor; [|exact IH].
    intros Hin%list_elem_of_In. apply filter_In in Hin as [Hin _].
    now apply Ha, list_elem_of_In. }
  destruct (List.filter (tie compareFn x) l) as [|a [|b k]]; try reflexivity.
  exfalso. assert (a = b) as -> by (apply Hshort; cbn; auto).
  apply NoDup_cons in Hnd' as [Hnot _]. apply Hnot. now left.
Qed.

Lemma sort_exchanged (l : list A) :
  NoDup l ->
  (forall a b, In a l -> In b l -> tie compareFn a b = true -> a = b) ->
  sort (fun a b => compareFn b a) l = rev (sort compareFn l).
Proof.
  intros Hnd Hties. symmetry.
  apply (sort_unique _ exchanged_consistent).
  split; [|split].
  - rewrite <- Permutation_rev. apply sort_Permutation.
  - apply (StronglySorted_rev (notAfter compareFn)).
    now apply sort_StronglySorted.
  - intros x.
    rewrite !(filter_ext (tie (fun a b => compareFn b a) x) (tie compareFn x)).
    + rewrite filter_rev, (sort_filter _ compareFn_consistent).
      symmetry. now apply filter_tie_short.
    + intros a. unfold tie.
      destruct (Z.eqb_spec (compareFn a x) 0) as [E|E],
               (Z.eqb_spec (compareFn x a) 0) as [E'|E']; try reflexivity;
        exfalso.
      * now apply E', (compareFn_tie_flip _ compareFn_consistent).
      * now apply E, (compareFn_tie_flip _ compareFn_consistent).
    + intros a. unfold tie.
      destruct (Z.eqb_spec (compareFn a x) 0) as [E|E],
               (Z.eqb_spec (compareFn x a) 0) as [E'|E']; try reflexivity;
        exfalso.
      * now apply E', (compareFn_tie_flip _ compareFn_consistent).
      * now apply E, (compareFn_tie_flip _ compareFn_consistent).
Qed.
End SortReversed.

Lemma sort_ext {A : Type} (f g : A -> A -> Z) (l : list A) :
  (forall a b, f a b = g a b) -> sort f l = sort g l.
Proof.
  intros H. induction l as [|x l IH]; [reflexivity|].
  cbn [sort foldr]. fold (sort f l) (sort g l). rewrite IH.
  generalize (sort g l) as k. induction k as [|y k IHk]; [reflexivity|].
  cbn [sortInsert]. now rewrite H, IHk.
Qed.

(** X22.  With a consistent [localeCompare], when the users shown are
    distinct and no two of them tie on the sort field, the descending
    list is the ascending list reversed.  (With ties it is not: tied
    users keep the order of [users] in both directions.) *)
Theorem descending_reverses_ascending (up down : State) :
  consistent localeCompare ->
  users down = users up ->
  searchQuery down = searchQuery up ->
  field (sortOrder up) = "fullName" \/ field (sortOrder up) = "email" ->
  field (sortOrder down) = field (sortOrder up) ->
  order (sortOrder up) = "asc" ->
  order (sortOrder down) = "desc" ->
  NoDup (filteredUser up) ->
  (forall a b, In a (filteredUser up) -> In b (filteredUser up) ->
               tiedKeys (field (sortOrder up)) a b = true -> a = b) ->
  filteredUser down = rev (filteredUser up).
Proof.
  intros Hlc Hu Hq Hf Hfd Ho Hod. unfold filteredUser. rewrite Hu, Hq.
  destruct (sortOrder up) as [f o], (sortOrder down) as [f' o'].
  cbn [field order] in *. subst f' o o'.
  set (l := List.filter (matchesQuery (searchQuery up)) (users up)).
  intros Hnd Hties.
  pose proof (compareUsers_consistent f "asc" Hlc Hf) as Hcmp.
  rewrite <- (sort_exchanged _ Hcmp).
  - apply sort_ext. intros a b. now rewrite !compareUsers_sortKey.
  - now rewrite (sort_Permutation (compareUsers {| field := f; order := "asc" |})).
  - intros a b Ha Hb Ht. apply Hties.
    + now apply sort_In.
    + now apply sort_In.
    + unfold tie in Ht. now rewrite compareUsers_sortKey in Ht.
Qed.

(** *** When the list fetch after a change fails *)

(** X23.  When a delete succeeds and the list fetch that follows is
    rejected, the state is as it was, so the list still holds the user
    deleted; the failure is logged as one of fetching, and status 401
    leads to [/login]. *)
Theorem deleteUser_refetch_rejected (w : World) (k : Z) (data : list User)
    (error : AxiosError) (srv srv' : Server) :
  respond (backend w) {| method := DELETE; url := "/users/" +:+ numberToString k; body := None |}
    = (Resolve data, srv) ->
  respond srv {| method := GET; url := "/users"; body := None |}
    = (Reject error, srv') ->
  deleteUser k w =
    (Returned tt,
     {| view := view w;
        backend := srv';
        trace := trace w
                 ++ [ EvRequest {| method := DELETE; url := "/users/" +:+ numberToString k;
                                   body := None |};
                      EvRequest {| method := GET; url := "/users"; body := None |};
                      EvConsoleError "Error fetching users:" error ]
                 ++ (if decide (status error = Some 401)
                     then [EvRouterPush "/login"] else []) |}).
Proof.
  intros Hdelete Hget. run_handler. rewrite itemUrl_eq. answer_with Hdelete.
  unfold apiUrl. answer_with Hget.
  destruct (decide (status error = Some 401)); cbn [view backend trace];
    same_trace.
Qed.

(** X24.  When a create succeeds and the list fetch that follows is
    rejected, the draft is reset and the form closed all the same, and
    the list stays as it was, without the user created. *)
Theorem createUser_refetch_rejected (w : World) (data : list User)
    (error : AxiosError) (srv srv' : Server) :
  respond (backend w)
    {| method := POST; url := "/users"; body := Some (toObject (newUser (view w))) |}
    = (Resolve data, srv) ->
  respond srv {| method := GET; url := "/users"; body := None |}
    = (Reject error, srv') ->
  createUser w =
    (Returned tt,
     {| view := {| users := users (view w); newUser := emptyUser;
                   editUser := editUser (view w); showForm := false;
                   searchQuery := searchQuery (view w);
                   sortOrder := sortOrder (view w) |};
        backend := srv';
        trace := trace w
                 ++ [ EvRequest {| method := POST; url := "/users";
                                   body := Some (toObject (newUser (view w))) |};
                      EvRequest {| method := GET; url := "/users"; body := None |};
                      EvConsoleError "Error fetching users:" error ]
                 ++ (if decide (status error = Some 401)
                     then [EvRouterPush "/login"] else []) |}).
Proof.
  intros Hpost Hget. run_handler. unfold apiUrl. answer_with Hpost.
  answer_with Hget. fold emptyUser.
  destruct (decide (status error = Some 401)); cbn [view backend trace];
    same_trace.
Qed.

(** *** The derived list is determined *)

(** X25.  With a consistent [localeCompare] and one of the four sort
    settings, the derived list is the only stable-sorted arrangement of
    the filtered users: a list that has the same elements, is in the
    order of the setting and keeps tied users in the order of [users]
    is [filteredUser]. *)
Theorem filteredUser_unique (s : State) (output : list User) :
  consistent localeCompare ->
  field (sortOrder s) = "fullName" \/ field (sortOrder s) = "email" ->
  order (sortOrder s) = "asc" \/ order (sortOrder s) = "desc" ->
  stableSorted
    (fun a b => inDirection (order (sortOrder s))
                  (sortKey (field (sortOrder s)) a)
                  (sortKey (field (sortOrder s)) b))
    (tiedKeys (field (sortOrder s)))
    (List.filter (matchesQuery (searchQuery s)) (users s))
    output ->
  output = filteredUser s.
Proof.
  intros Hlc Hf Ho Hout. unfold filteredUser.
  destruct (sortOrder s) as [f o]. cbn [field order] in *.
  pose proof (compareUsers_consistent f o Hlc Hf) as Hcmp.
  apply (sort_unique _ Hcmp).
  eapply stableSorted_ext; [| |exact Hout].
  - intros a b. unfold notAfter, inDirection.
    rewrite compareUsers_sortKey by exact Hf.
    destruct Ho as [-> | ->]; cbn; [tauto|].
    intros H. destruct Hlc as [Hsgn _].
    specialize (Hsgn (sortKey f a) (sortKey f b)).
    destruct (Z.sgn_spec (localeCompare (sortKey f a) (sortKey f b)))
      as [[? ?]|[[? ?]|[? ?]]];
    destruct (Z.sgn_spec (localeCompare (sortKey f b) (sortKey f a)))
      as [[? ?]|[[? ?]|[? ?]]]; lia.
  - intros a b. unfold tie, tiedKeys.
    rewrite compareUsers_sortKey by exact Hf.
    destruct Ho as [-> | ->]; cbn; [reflexivity|].
    destruct Hlc as [Hsgn _].
    specialize (Hsgn (sortKey f a) (sortKey f b)).
    pose proof (Z.sgn_null_iff (localeCompare (sortKey f a) (sortKey f b))).
    pose proof (Z.sgn_null_iff (localeCompare (sortKey f b) (sortKey f a))).
    destruct (Z.eqb_spec (localeCompare (sortKey f b) (sortKey f a)) 0),
             (Z.eqb_spec (localeCompare (sortKey f a) (sortKey f b)) 0);
      try reflexivity; exfalso; lia.
Qed.

End Component.

Arguments view {Server} _.
Arguments backend {Server} _.
Arguments trace {Server} _.
Arguments mkWorld {Server} _ _ _.
Arguments initialWorld {Server} srv.
Arguments exec {Server} m w.
Arguments fetchUsers {Server} respond _.
Arguments createUser {Server} respond _.
Arguments updateUser numberToString {Server} respond _.
Arguments deleteUser numberToString {Server} respond k _.
Arguments handleCancelClick {Server} _.
Arguments dispatch numberToString {Server} respond a _.
Arguments reachable numberToString {Server} respond _.
Arguments run numberToString {Server} respond actions w.
Arguments handleSortChange {Server} o _.

(** ** The page on a concrete host and backend *)

Lemma codeUnitCompare_consistent : consistent codeUnitCompare.
Proof.
  unfold codeUnitCompare. split.
  - intros a b. rewrite (String.compare_antisym a b).
    destruct (String.compare b a); reflexivity.
  - intros a b c Hab Hbc.
    destruct (String.compare a b) eqn:Eab; [| |lia].
    + apply String.compare_eq_iff in Eab. now subst.
    + destruct (String.compare b c) eqn:Ebc; [| |lia].
      * apply String.compare_eq_iff in Ebc. subst. now rewrite Eab.
      * change String.compare with String_as_OT.cmp in *.
        apply String_as_OT.cmp_lt in Eab, Ebc.
        pose proof (String_as_OT.lt_trans _ _ _ Eab Ebc) as Hac.
        apply String_as_OT.cmp_lt in Hac. now rewrite Hac.
Qed.

(** On ASCII text the host of the examples lower-cases code unit by
    code unit. *)
Lemma lowerItems_ascii (s : string) (afterCased : bool) :
  isAscii s = true ->
  encode (lowerItems afterCased (decode s)) = asciiLowerCase s.
Proof.
  revert afterCased. induction s as [|c s IH]; intros afterCased H; [reflexivity|].
  cbn [isAscii] in H. apply andb_true_iff in H as [Hc Hs].
  cbn [decode]. cbv zeta. rewrite Hc. cbn [lowerItems encode].
  rewrite (IH _ Hs). apply N.ltb_lt in Hc.
  assert (E931 : (N_of_ascii c =? 931)%N = false) by (apply N.eqb_neq; lia).
  rewrite E931. unfold lowerCodePoint, isCapitalGreek, isCapitalLatin.
  replace (913 <=? N_of_ascii c)%N with false
    by (symmetry; apply N.leb_gt; lia).
  cbn [andb orb]. rewrite orb_false_r.
  unfold asciiLowerCase at 2. cbn [mapCodeUnits]. fold (asciiLowerCase s).
  unfold lowerCodeUnit. cbv zeta.
  destruct ((65 <=? N_of_ascii c) && (N_of_ascii c <=? 90))%N eqn:E;
    cbn [encodeItem].
  - apply andb_true_iff in E as [_ E%N.leb_le].
    replace (N_of_ascii c + 32 <? 128)%N with true
      by (symmetry; apply N.ltb_lt; lia).
    reflexivity.
  - replace (N_of_ascii c <? 128)%N with true
      by (symmetry; apply N.ltb_lt; lia).
    now rewrite ascii_N_embedding.
Qed.

Lemma hostLowerCase_ascii : lowersAscii hostLowerCase.
Proof. intros s H. now apply lowerItems_ascii. Qed.

Lemma decimalNumeral_decimal : writesDecimal decimalNumeral.
Proof. intros k _. reflexivity. Qed.



Lemma filteredUser_stableSorted_witness :
  let s := {| users := [ mkUser 7 "Bob" "555-0101" "bob@example.org" "admin";
                         mkUser 9 "Alice" "555-0102" "alice@example.org" "user" ];
              newUser := emptyUser; editUser := None; showForm := false;
              searchQuery := "EXAMPLE";
              sortOrder := {| field := "fullName"; order := "asc" |} |} in
  stableSorted
    (fun a b => inDirection codeUnitCompare "asc" (sortKey "fullName" a) (sortKey "fullName" b))
    (tiedKeys codeUnitCompare "fullName")
    (List.filter (matchesQuery hostLowerCase (searchQuery s)) (users s))
    (filteredUser hostLowerCase codeUnitCompare s) /\
  filteredUser hostLowerCase codeUnitCompare s =
    [ mkUser 9 "Alice" "555-0102" "alice@example.org" "user";
      mkUser 7 "Bob" "555-0101" "bob@example.org" "admin" ].
Proof.
  intros s.
  destruct (filteredUser_stableSorted hostLowerCase codeUnitCompare
              codeUnitCompare_consistent ltac:(reflexivity)) as [Hsorted Hexample].
  split.
  - apply (Hsorted s); left; reflexivity.
  - apply (Hexample s); reflexivity.
Defined.

(** The claim that the body of the POST lacks an [id] fails on the
    initial draft: the body sent has [id] 0. *)
Lemma createUser_body_without_id_counterexample :
  ~ (exists (b : gmap string JsValue) (rest : list Event),
       trace (exec (createUser scripted) (initialWorld [Resolve []; Resolve []]))
       = trace (initialWorld [Resolve []; Resolve []])
         ++ EvRequest {| method := POST; url := "/users"; body := Some b |} :: rest /\
       b !! "id" = None).
Proof.
  intros (b & rest & H & Hid).
  vm_compute in H. injection H as Hb _. subst b.
  vm_compute in Hid. discriminate Hid.
Qed.

Lemma request_errors_caught_and_logged_witness :
  let unauthorized := {| status := Some 401 |} in
  let failed := {| status := Some 500 |} in
  let edited := mkUser 7 "Bob" "555-0101" "bob@example.org" "admin" in
  let editing :=
    {| view := {| users := [edited]; newUser := emptyUser; editUser := Some edited;
                  showForm := true; searchQuery := "";
                  sortOrder := {| field := "fullName"; order := "asc" |} |};
       backend := [Reject failed];
       trace := [] |} in
  fetchUsers scripted (initialWorld [Reject unauthorized]) =
    (Returned tt,
     {| view := initialState; backend := [];
        trace := [ EvRequest {| method := GET; url := "/users"; body := None |};
                   EvConsoleError "Error fetching users:" unauthorized;
                   EvRouterPush "/login" ] |}) /\
  createUser scripted (initialWorld [Reject unauthorized]) =
    (Returned tt,
     {| view := initialState; backend := [];
        trace := [ EvRequest {| method := POST; url := "/users";
                                body := Some (toObject emptyUser) |};
                   EvConsoleError "Error creating user:" unauthorized ] |}) /\
  updateUser decimalNumeral scripted editing =
    (Returned tt,
     {| view := view editing; backend := [];
        trace := [ EvRequest {| method := PUT; url := "/users/7";
                                body := Some (toObject edited) |};
                   EvConsoleError "Error updating user:" failed ] |}) /\
  deleteUser decimalNumeral scripted 5 (initialWorld [Reject failed]) =
    (Returned tt,
     {| view := initialState; backend := [];
        trace := [ EvRequest {| method := DELETE; url := "/users/5"; body := None |};
                   EvConsoleError "Error deleting user:" failed ] |}).
Proof.
  intros unauthorized failed edited editing.
  destruct (request_errors_caught_and_logged decimalNumeral (list Response) scripted)
    as (Hfetch & Hcreate & Hupdate & Hdelete).
  split; [|split; [|split]].
  - apply (Hfetch (initialWorld [Reject unauthorized]) unauthorized []). reflexivity.
  - apply (Hcreate (initialWorld [Reject unauthorized]) unauthorized []). reflexivity.
  - apply (Hupdate editing edited failed []); reflexivity.
  - apply (Hdelete (initialWorld [Reject failed]) 5 failed []). reflexivity.
Defined.

Lemma createUser_on_success_witness :
  let jane := mkUser 0 "Jane" "555-0199" "jane@example.org" "" in
  let saved := mkUser 12 "Jane" "555-0199" "jane@example.org" "" in
  let w := {| view := {| users := []; newUser := jane; editUser := None;
                         showForm := true; searchQuery := "";
                         sortOrder := {| field := "fullName"; order := "asc" |} |};
              backend := [Resolve [saved]; Resolve [saved]];
              trace := [] |} in
  createUser scripted w =
    (Returned tt,
     {| view := {| users := [saved]; newUser := emptyUser; editUser := None;
                   showForm := false; searchQuery := "";
                   sortOrder := {| field := "fullName"; order := "asc" |} |};
        backend := [];
        trace := [ EvRequest {| method := POST; url := "/users";
                                body := Some (toObject jane) |};
                   EvRequest {| method := GET; url := "/users"; body := None |} ] |}) /\
  toObject jane !! "fullName" = Some (JStr "Jane").
Proof.
  intros jane saved w.
  destruct (createUser_on_success (list Response) scripted w [saved] [Resolve [saved]]
              eq_refl) as (Hrun & _ & Hname & _).
  split; [exact Hrun | exact Hname].
Defined.

Lemma updateUser_on_success_witness :
  let edited := mkUser 7 "Bob" "555-0101" "bob@example.org" "admin" in
  let w := {| view := {| users := [mkUser 7 "Rob" "555-0101" "bob@example.org" "admin"];
                         newUser := emptyUser; editUser := Some edited;
                         showForm := true; searchQuery := "";
                         sortOrder := {| field := "fullName"; order := "asc" |} |};
              backend := [Resolve [edited]; Resolve [edited]];
              trace := [] |} in
  updateUser decimalNumeral scripted w =
    (Returned tt,
     {| view := {| users := [edited]; newUser := emptyUser; editUser := None;
                   showForm := false; searchQuery := "";
                   sortOrder := {| field := "fullName"; order := "asc" |} |};
        backend := [];
        trace := [ EvRequest {| method := PUT; url := "/users/7";
                                body := Some (toObject edited) |};
                   EvRequest {| method := GET; url := "/users"; body := None |} ] |}).
Proof.
  intros edited w.
  destruct (updateUser_on_success decimalNumeral (list Response) scripted w edited [edited]
              [Resolve [edited]] eq_refl eq_refl) as (Hrun & _).
  exact Hrun.
Defined.

Lemma deleteUser_on_success_witness :
  let kept := mkUser 7 "Bob" "555-0101" "bob@example.org" "admin" in
  let gone := mkUser 5 "Alice" "555-0102" "alice@example.org" "user" in
  let w := {| view := {| users := [gone; kept]; newUser := emptyUser; editUser := None;
                         showForm := false; searchQuery := "";
                         sortOrder := {| field := "fullName"; order := "asc" |} |};
              backend := [Resolve []; Resolve [kept]];
              trace := [] |} in
  deleteUser decimalNumeral scripted 5 w =
    (Returned tt,
     {| view := {| users := [kept]; newUser := emptyUser; editUser := None;
                   showForm := false; searchQuery := "";
                   sortOrder := {| field := "fullName"; order := "asc" |} |};
        backend := [];
        trace := [ EvRequest {| method := DELETE; url := "/users/5"; body := None |};
                   EvRequest {| method := GET; url := "/users"; body := None |} ] |}) /\
  "/users/" +:+ decimalNumeral 5 = "/users/5".
Proof.
  intros kept gone w.
  destruct (deleteUser_on_success decimalNumeral (list Response) scripted w 5 []
              [Resolve [kept]] eq_refl) as (Hrun & _ & Hfive).
  split; [exact Hrun | exact (Hfive decimalNumeral_decimal)].
Defined.

Lemma newUser_id_placeholder_witness :
  let session :=
    exec (dispatch decimalNumeral scripted SubmitClick)
      (exec (dispatch decimalNumeral scripted (FullNameInput "Jane"))
         (exec (dispatch decimalNumeral scripted AddClick)
            (exec (dispatch decimalNumeral scripted Mount)
               (initialWorld [Resolve []; Resolve []; Resolve []])))) in
  reachable decimalNumeral scripted session /\ id (newUser (view session)) = 0.
Proof.
  intros session.
  assert (Hreach : reachable decimalNumeral scripted session)
    by (repeat apply reachable_step; apply reachable_initial).
  split; [exact Hreach|].
  destruct (newUser_id_placeholder decimalNumeral (list Response) scripted) as (_ & _ & Hinv).
  exact (Hinv session Hreach).
Defined.

Lemma updateUser_without_edit_witness :
  editUser (view (initialWorld [Resolve []])) = None /\
  updateUser decimalNumeral scripted (initialWorld [Resolve []]) =
    (Returned tt, initialWorld [Resolve []]).
Proof.
  split; [reflexivity|].
  destruct (updateUser_without_edit decimalNumeral (list Response) scripted
              (initialWorld [Resolve []]) eq_refl) as (Hrun & _).
  exact Hrun.
Defined.

(** ** The page at work *)

Example hostLowerCase_example :
  hostLowerCase "Jane.Doe@Example.ORG" = "jane.doe@example.org" /\
  asciiLowerCase "Jane.Doe@Example.ORG" = "jane.doe@example.org" /\
  hostLowerCase "ΟΔΥΣΣΕΥΣ" = "οδυσσευς".
Proof. repeat split. Qed.

Example includes_example :
  includes "jane.doe@example.org" "doe" = true /\
  includes "jane.doe@example.org" "" = true /\
  includes "jane" "janet" = false.
Proof. repeat split. Qed.

Example split_example :
  split "-" "fullName-desc" = ["fullName"; "desc"] /\
  split "-" "email" = ["email"] /\
  split "-" "" = [""].
Proof. repeat split. Qed.

(** Each option of the drop-down sets the field and the order it names. *)
Example handleSortChange_example :
  sortOrder (view (exec (dispatch decimalNumeral scripted (SortSelect EmailDesc)) (initialWorld [])))
  = {| field := "email"; order := "desc" |}.
Proof. reflexivity. Qed.

(** Filtering by a query in capitals, then sorting by name, ascending
    and descending. *)
Example filteredUser_example :
  let bob := mkUser 1 "Bob" "555-0101" "bob@example.org" "admin" in
  let alice := mkUser 2 "Alice" "555-0102" "alice@example.org" "user" in
  let carol := mkUser 3 "Carol" "555-0103" "carol@elsewhere.net" "user" in
  let state (q : string) (o : string) :=
    {| users := [bob; alice; carol]; newUser := emptyUser; editUser := None;
       showForm := false; searchQuery := q;
       sortOrder := {| field := "fullName"; order := o |} |} in
  filteredUser hostLowerCase codeUnitCompare (state "EXAMPLE.ORG" "asc") = [alice; bob] /\
  filteredUser hostLowerCase codeUnitCompare (state "" "desc") = [carol; bob; alice] /\
  filteredUser hostLowerCase codeUnitCompare (state "bo" "asc") = [bob].
Proof. vm_compute. repeat split. Qed.

(** Ties keep the order of [users], in both directions. *)
Example filteredUser_ties_example :
  let first := mkUser 1 "Sam" "555-0101" "sam.one@example.org" "admin" in
  let second := mkUser 2 "Sam" "555-0102" "sam.two@example.org" "user" in
  let state (o : string) :=
    {| users := [first; second]; newUser := emptyUser; editUser := None;
       showForm := false; searchQuery := "";
       sortOrder := {| field := "fullName"; order := o |} |} in
  filteredUser hostLowerCase codeUnitCompare (state "asc") = [first; second] /\
  filteredUser hostLowerCase codeUnitCompare (state "desc") = [first; second].
Proof. vm_compute. repeat split. Qed.

(** A session: mount, open the form, type a name, submit. *)
Example session_example :
  let saved := mkUser 12 "Jane" "" "" "" in
  let w := exec (dispatch decimalNumeral scripted SubmitClick)
             (exec (dispatch decimalNumeral scripted (FullNameInput "Jane"))
                (exec (dispatch decimalNumeral scripted AddClick)
                   (exec (dispatch decimalNumeral scripted Mount)
                      (initialWorld [Resolve []; Resolve [saved]; Resolve [saved]])))) in
  users (view w) = [saved] /\
  newUser (view w) = emptyUser /\
  showForm (view w) = false /\
  map method (requestsOf (trace w)) = [GET; POST; GET] /\
  map url (requestsOf (trace w)) = ["/users"; "/users"; "/users"].
Proof. vm_compute. repeat split. Qed.

(** ** Instances of the further properties *)

Lemma fetchUsers_replaces_list_witness :
  let stale := mkUser 3 "Carol" "555-0103" "carol@example.org" "user" in
  let fresh := mkUser 7 "Bob" "555-0101" "bob@example.org" "admin" in
  let w := {| view := {| users := [stale]; newUser := emptyUser; editUser := None;
                         showForm := false; searchQuery := "";
                         sortOrder := {| field := "fullName"; order := "asc" |} |};
              backend := [Resolve [fresh]];
              trace := [] |} in
  fetchUsers scripted w =
    (Returned tt,
     {| view := {| users := [fresh]; newUser := emptyUser; editUser := None;
                   showForm := false; searchQuery := "";
                   sortOrder := {| field := "fullName"; order := "asc" |} |};
        backend := [];
        trace := [EvRequest {| method := GET; url := "/users"; body := None |}] |}).
Proof.
  intros stale fresh w.
  exact (fetchUsers_replaces_list (list Response) scripted w [fresh] [] eq_refl).
Defined.

Lemma sortOrder_is_an_option_witness :
  let w := exec (dispatch decimalNumeral scripted (SortSelect EmailDesc))
             (exec (dispatch decimalNumeral scripted Mount) (initialWorld [Resolve []])) in
  reachable decimalNumeral scripted w /\
  (field (sortOrder (view w)) = "fullName" \/ field (sortOrder (view w)) = "email") /\
  (order (sortOrder (view w)) = "asc" \/ order (sortOrder (view w)) = "desc").
Proof.
  intros w.
  assert (Hreach : reachable decimalNumeral scripted w)
    by (repeat apply reachable_step; apply reachable_initial).
  split; [exact Hreach|].
  exact (sortOrder_is_an_option decimalNumeral (list Response) scripted w Hreach).
Defined.

Lemma local_actions_are_local_witness :
  let w := initialWorld [Resolve []] in
  callsApi (SearchInput "bob") = false /\
  backend (exec (dispatch decimalNumeral scripted (SearchInput "bob")) w) = [Resolve []] /\
  trace (exec (dispatch decimalNumeral scripted (SearchInput "bob")) w) = [] /\
  users (view (exec (dispatch decimalNumeral scripted (SearchInput "bob")) w)) = [].
Proof.
  intros w. split; [reflexivity|].
  exact (local_actions_are_local decimalNumeral (list Response) scripted (SearchInput "bob") w eq_refl).
Defined.

Lemma requests_wellFormed_witness :
  let u := mkUser 7 "Bob" "555-0101" "bob@example.org" "admin" in
  let w := exec (dispatch decimalNumeral scripted SubmitClick)
             (exec (dispatch decimalNumeral scripted (FullNameInput "Rob"))
                (exec (dispatch decimalNumeral scripted (EditClick u))
                   (exec (dispatch decimalNumeral scripted Mount)
                      (initialWorld [Resolve [u]; Resolve [u]; Resolve [u]])))) in
  reachable decimalNumeral scripted w /\
  map method (requestsOf (trace w)) = [GET; PUT; GET] /\
  Forall (wellFormed decimalNumeral) (requestsOf (trace w)).
Proof.
  intros u w.
  assert (Hreach : reachable decimalNumeral scripted w)
    by (repeat apply reachable_step; apply reachable_initial).
  split; [exact Hreach|]. split; [reflexivity|].
  exact (requests_wellFormed decimalNumeral (list Response) scripted w Hreach).
Defined.

Lemma navigates_to_login_only_witness :
  let w := exec (dispatch decimalNumeral scripted Mount)
             (initialWorld [Reject {| status := Some 401 |}]) in
  reachable decimalNumeral scripted w /\
  navigationsOf (trace w) = ["/login"] /\
  Forall (eq "/login") (navigationsOf (trace w)).
Proof.
  intros w.
  assert (Hreach : reachable decimalNumeral scripted w)
    by (repeat apply reachable_step; apply reachable_initial).
  split; [exact Hreach|]. split; [reflexivity|].
  exact (navigates_to_login_only decimalNumeral (list Response) scripted w Hreach).
Defined.

Lemma posts_carry_placeholders_witness :
  let w := exec (dispatch decimalNumeral scripted SubmitClick)
             (exec (dispatch decimalNumeral scripted (EmailInput "jane@example.org"))
                (exec (dispatch decimalNumeral scripted (FullNameInput "Jane"))
                   (exec (dispatch decimalNumeral scripted AddClick)
                      (initialWorld [Resolve []; Resolve []])))) in
  reachable decimalNumeral scripted w /\
  map method (requestsOf (trace w)) = [POST; GET] /\
  Forall (fun r => method r = POST ->
                   exists b, body r = Some b /\
                             b !! "id" = Some (JNum 0) /\
                             b !! "roles" = Some (JStr ""))
         (requestsOf (trace w)).
Proof.
  intros w.
  assert (Hreach : reachable decimalNumeral scripted w)
    by (repeat apply reachable_step; apply reachable_initial).
  split; [exact Hreach|]. split; [reflexivity|].
  exact (posts_carry_placeholders decimalNumeral (list Response) scripted w Hreach).
Defined.

Lemma inputs_show_what_is_typed_witness :
  let u := mkUser 7 "Bob" "555-0101" "bob@example.org" "admin" in
  let w := exec (dispatch decimalNumeral scripted (EditClick u)) (initialWorld [Resolve []]) in
  render hostLowerCase codeUnitCompare (view w)
    = FormView "Edit User" "Bob" "bob@example.org" "555-0101" "Update" /\
  render hostLowerCase codeUnitCompare (view (exec (dispatch decimalNumeral scripted (FullNameInput "Rob")) w))
    = FormView "Edit User" "Rob" "bob@example.org" "555-0101" "Update".
Proof.
  intros u w. split; [reflexivity|].
  destruct (inputs_show_what_is_typed hostLowerCase codeUnitCompare decimalNumeral (list Response) scripted w "Rob"
              "Edit User" "Bob" "bob@example.org" "555-0101" "Update" eq_refl)
    as (Hname & _).
  exact Hname.
Defined.

Lemma create_success_clears_form_witness :
  let jane := mkUser 0 "Jane" "555-0199" "jane@example.org" "" in
  let w := {| view := {| users := []; newUser := jane; editUser := None;
                         showForm := true; searchQuery := "";
                         sortOrder := {| field := "fullName"; order := "asc" |} |};
              backend := [Resolve []; Resolve [mkUser 12 "Jane" "555-0199" "jane@example.org" ""]];
              trace := [] |} in
  render hostLowerCase codeUnitCompare (view (run decimalNumeral scripted [SubmitClick; AddClick] w))
    = FormView "Add New User" "" "" "" "Create".
Proof.
  intros jane w.
  destruct (create_success_clears_form hostLowerCase codeUnitCompare decimalNumeral (list Response) scripted w []
              [Resolve [mkUser 12 "Jane" "555-0199" "jane@example.org" ""]]
              eq_refl eq_refl) as (_ & Hform).
  exact Hform.
Defined.

Lemma empty_query_shows_all_witness :
  let bob := mkUser 7 "Bob" "555-0101" "bob@example.org" "admin" in
  let alice := mkUser 9 "Alice" "555-0102" "alice@example.org" "user" in
  let s := {| users := [bob; alice]; newUser := emptyUser; editUser := None;
              showForm := false; searchQuery := "";
              sortOrder := {| field := "fullName"; order := "asc" |} |} in
  Permutation [bob; alice] (filteredUser hostLowerCase codeUnitCompare s).
Proof.
  intros bob alice s.
  exact (empty_query_shows_all hostLowerCase codeUnitCompare s eq_refl eq_refl).
Defined.

Lemma longer_query_narrows_witness :
  let bob := mkUser 7 "Bob" "555-0101" "bob@example.org" "admin" in
  let alice := mkUser 9 "Alice" "555-0102" "alice@example.org" "user" in
  let state (q : string) :=
    {| users := [bob; alice]; newUser := emptyUser; editUser := None;
       showForm := false; searchQuery := q;
       sortOrder := {| field := "fullName"; order := "asc" |} |} in
  In bob (filteredUser hostLowerCase codeUnitCompare (state "BOB@")) /\
  In bob (filteredUser hostLowerCase codeUnitCompare (state "ob")).
Proof.
  intros bob alice state.
  assert (Hlong : In bob (filteredUser hostLowerCase codeUnitCompare (state "BOB@")))
    by (left; reflexivity).
  split; [exact Hlong|].
  apply (longer_query_narrows hostLowerCase codeUnitCompare (state "ob") (state "BOB@") bob
           hostLowerCase_ascii eq_refl eq_refl eq_refl).
  - exists "B", "OB", "@". split; [reflexivity|].
    cbn. unfold equalIgnoringCase. cbn. lia.
  - exact Hlong.
Defined.

Lemma itemKeys_distinct_witness :
  let bob := mkUser 7 "Bob" "555-0101" "bob@example.org" "admin" in
  let alice := mkUser 9 "Alice" "555-0102" "alice@example.org" "user" in
  let s := {| users := [bob; alice]; newUser := emptyUser; editUser := None;
              showForm := false; searchQuery := "example";
              sortOrder := {| field := "email"; order := "asc" |} |} in
  itemKeys hostLowerCase codeUnitCompare s = [9; 7] /\ NoDup (itemKeys hostLowerCase codeUnitCompare s).
Proof.
  intros bob alice s. split; [reflexivity|].
  apply (itemKeys_distinct hostLowerCase codeUnitCompare s).
  apply NoDup_cons. split; [|apply NoDup_singleton].
  intros H%list_elem_of_In. destruct H as [H|[]]. discriminate H.
Defined.


Lemma filteredUser_sorted_by_id_witness :
  let bob := mkUser 7 "Bob" "555-0101" "bob@example.org" "admin" in
  let alice := mkUser 9 "Alice" "555-0102" "alice@example.org" "user" in
  let carol := mkUser 3 "Carol" "555-0103" "carol@example.org" "user" in
  let s := {| users := [bob; alice; carol]; newUser := emptyUser; editUser := None;
              showForm := false; searchQuery := "";
              sortOrder := {| field := "id"; order := "desc" |} |} in
  filteredUser hostLowerCase codeUnitCompare s = [alice; bob; carol] /\
  stableSorted (fun a b => id b <= id a) (fun a b => id a =? id b)
    [bob; alice; carol] (filteredUser hostLowerCase codeUnitCompare s).
Proof.
  intros bob alice carol s. split; [reflexivity|].
  exact (filteredUser_sorted_by_id hostLowerCase codeUnitCompare s eq_refl).
Defined.

Lemma descending_reverses_ascending_witness :
  let bob := mkUser 7 "Bob" "555-0101" "bob@example.org" "admin" in
  let alice := mkUser 9 "Alice" "555-0102" "alice@example.org" "user" in
  let state (o : string) :=
    {| users := [bob; alice]; newUser := emptyUser; editUser := None;
       showForm := false; searchQuery := "";
       sortOrder := {| field := "fullName"; order := o |} |} in
  filteredUser hostLowerCase codeUnitCompare (state "asc") = [alice; bob] /\
  filteredUser hostLowerCase codeUnitCompare (state "desc") = [bob; alice].
Proof.
  intros bob alice state. split; [reflexivity|].
  apply (descending_reverses_ascending hostLowerCase codeUnitCompare (state "asc") (state "desc")
           codeUnitCompare_consistent eq_refl eq_refl (or_introl eq_refl)
           eq_refl eq_refl eq_refl).
  - apply NoDup_cons. split; [|apply NoDup_singleton].
    intros H%list_elem_of_In. destruct H as [H|[]]. discriminate H.
  - intros a b [<-|[<-|[]]] [<-|[<-|[]]] H; try reflexivity; discriminate H.
Defined.

Lemma deleteUser_refetch_rejected_witness :
  let bob := mkUser 7 "Bob" "555-0101" "bob@example.org" "admin" in
  let expired := {| status := Some 401 |} in
  let w := {| view := {| users := [bob]; newUser := emptyUser; editUser := None;
                         showForm := false; searchQuery := "";
                         sortOrder := {| field := "fullName"; order := "asc" |} |};
              backend := [Resolve []; Reject expired];
              trace := [] |} in
  deleteUser decimalNumeral scripted 7 w =
    (Returned tt,
     {| view := view w;
        backend := [];
        trace := [ EvRequest {| method := DELETE; url := "/users/7"; body := None |};
                   EvRequest {| method := GET; url := "/users"; body := None |};
                   EvConsoleError "Error fetching users:" expired;
                   EvRouterPush "/login" ] |}).
Proof.
  intros bob expired w.
  exact (deleteUser_refetch_rejected decimalNumeral (list Response) scripted w 7 [] expired
           [Reject expired] [] eq_refl eq_refl).
Defined.

Lemma createUser_refetch_rejected_witness :
  let jane := mkUser 0 "Jane" "555-0199" "jane@example.org" "" in
  let down := {| status := None |} in
  let w := {| view := {| users := []; newUser := jane; editUser := None;
                         showForm := true; searchQuery := "";
                         sortOrder := {| field := "fullName"; order := "asc" |} |};
              backend := [Resolve []; Reject down];
              trace := [] |} in
  createUser scripted w =
    (Returned tt,
     {| view := {| users := []; newUser := emptyUser; editUser := None;
                   showForm := false; searchQuery := "";
                   sortOrder := {| field := "fullName"; order := "asc" |} |};
        backend := [];
        trace := [ EvRequest {| method := POST; url := "/users";
                                body := Some (toObject jane) |};
                   EvRequest {| method := GET; url := "/users"; body := None |};
                   EvConsoleError "Error fetching users:" down ] |}).
Proof.
  intros jane down w.
  exact (createUser_refetch_rejected (list Response) scripted w [] down
           [Reject down] [] eq_refl eq_refl).
Defined.

Lemma filteredUser_unique_witness :
  let bob := mkUser 7 "Bob" "555-0101" "bob@example.org" "admin" in
  let alice := mkUser 9 "Alice" "555-0102" "alice@example.org" "user" in
  let s := {| users := [bob; alice]; newUser := emptyUser; editUser := None;
              showForm := false; searchQuery := "";
              sortOrder := {| field := "fullName"; order := "asc" |} |} in
  [alice; bob] = filteredUser hostLowerCase codeUnitCompare s.
Proof.
  intros bob alice s.
  apply (filteredUser_unique hostLowerCase codeUnitCompare s [alice; bob]
           codeUnitCompare_consistent (or_introl eq_refl) (or_introl eq_refl)).
  split; [apply perm_swap|]. split.
  - repeat constructor. discriminate.
  - intros x. unfold tiedKeys, sortKey. simpl.
    destruct (Z.eqb_spec (codeUnitCompare (fullName x) "Alice") 0) as [Ea|Ea],
             (Z.eqb_spec (codeUnitCompare (fullName x) "Bob") 0) as [Eb|Eb];
      try reflexivity.
    exfalso. unfold codeUnitCompare in Ea, Eb.
    destruct (String.compare (fullName x) "Alice") eqn:Ca; try discriminate Ea.
    destruct (String.compare (fullName x) "Bob") eqn:Cb; try discriminate Eb.
    apply String.compare_eq_iff in Ca, Cb. rewrite Ca in Cb. discriminate Cb.
Defined.
